(** * go-ldap-client: a shallow embedding of [ldap-client.go]

    The client of [ldap-client.go] is glue code over two external
    collaborators: Go's [fmt]/[strconv] and the directory connection of
    [gopkg.in/ldap.v2].  The embedding keeps the client code as it is
    written and makes the collaborators explicit:

    - every request issued on the network (dial, StartTLS, bind, search,
      add, modify, close) is answered by an oracle that sees the whole
      history of earlier requests and answers, and is appended, together
      with its answer, to that history;
    - the client object is part of the state, since every method has a
      pointer receiver and [Connect]/[Close] assign [lc.Conn];
    - a method call on a nil [*ldap.Conn] is a run-time panic: operations
      live in a state monad with failure, and the theorems show that the
      published methods never reach it. *)

From Stdlib Require Import Ascii.
From stdpp Require Import gmap strings list pretty.

(** ** Go's [error] values

    [errors.New] builds the two errors of the package itself; every other
    error comes out of the ldap library ([ldap.Error] carries a result code
    and the wrapped message).  A Go [error] that may be [nil] is an
    [option error]. *)

Inductive error : Type :=
| errors_New (text : string)
| ldap_Error (resultCode : N) (text : string).

(** ** [crypto/tls] *)

Module tls.
Record Config : Type := mkConfig {
  InsecureSkipVerify : bool;
  ServerName : string
}.
End tls.

(** ** The data types of [gopkg.in/ldap.v2] the client touches *)

Module ldap.

(** A [*ldap.Conn] that is not nil: the identity of a live connection. *)
Definition Conn : Type := positive.

Inductive Scope : Type := ScopeBaseObject | ScopeSingleLevel | ScopeWholeSubtree.

Inductive DerefAliases : Type :=
| NeverDerefAliases | DerefInSearching | DerefFindingBaseObj | DerefAlways.

Record SearchRequest : Type := NewSearchRequest {
  BaseDN : string;
  SearchScope : Scope;
  Deref : DerefAliases;
  SizeLimit : Z;
  TimeLimit : Z;
  TypesOnly : bool;
  Filter : string;
  SearchAttributes : list string;
  Controls : list string
}.

Record EntryAttribute : Type := mkEntryAttribute {
  Name : string;
  Values : list string
}.

Record Entry : Type := mkEntry {
  DN : string;
  Attributes : list EntryAttribute
}.

Record SearchResult : Type := mkSearchResult {
  Entries : list Entry
}.

(** [Entry.GetAttributeValues]: the values of the first attribute of that
    name, the empty slice when there is none. *)
Fixpoint attributeValues (attrs : list EntryAttribute) (attribute : string)
  : list string :=
  match attrs with
  | [] => []
  | attr :: attrs' =>
      if bool_decide (Name attr = attribute) then Values attr
      else attributeValues attrs' attribute
  end.

Definition GetAttributeValues (e : Entry) (attribute : string) : list string :=
  attributeValues (Attributes e) attribute.

(** [Entry.GetAttributeValue]: the first of those values, the empty string
    when there is none. *)
Definition GetAttributeValue (e : Entry) (attribute : string) : string :=
  let values := GetAttributeValues e attribute in
  if bool_decide (length values = 0) then "" else default "" (values !! 0).

(** [ldap.Attribute] of an add request and [ldap.PartialAttribute] of a
    modify request have the same two fields. *)
Record Attribute : Type := mkAttribute {
  Type_ : string;
  Vals : list string
}.

Record AddRequest : Type := mkAddRequest {
  AddDN : string;
  AddAttributes : list Attribute
}.

Definition NewAddRequest (dn : string) : AddRequest :=
  {| AddDN := dn; AddAttributes := [] |}.

(** [AddRequest.Attribute] appends one attribute to the request. *)
Definition AddRequest_Attribute (a : AddRequest) (attrType : string)
    (attrVals : list string) : AddRequest :=
  {| AddDN := AddDN a;
     AddAttributes := AddAttributes a ++ [mkAttribute attrType attrVals] |}.

Record ModifyRequest : Type := mkModifyRequest {
  ModifyDN : string;
  ModAddAttributes : list Attribute;
  DeleteAttributes : list Attribute;
  ReplaceAttributes : list Attribute
}.

Definition NewModifyRequest (dn : string) : ModifyRequest :=
  {| ModifyDN := dn; ModAddAttributes := []; DeleteAttributes := [];
     ReplaceAttributes := [] |}.

Definition setReplaceAttributes (m : ModifyRequest) (l : list Attribute)
  : ModifyRequest :=
  {| ModifyDN := ModifyDN m; ModAddAttributes := ModAddAttributes m;
     DeleteAttributes := DeleteAttributes m; ReplaceAttributes := l |}.

End ldap.

(** ** What goes over the wire

    One constructor per request of the library the client uses, with the
    arguments the client passed and the answer it got. *)

Inductive Event : Type :=
| EvDial (network address : string) (r : ldap.Conn + error)
| EvDialTLS (network address : string) (config : tls.Config)
    (r : ldap.Conn + error)
| EvStartTLS (c : ldap.Conn) (config : tls.Config) (r : option error)
| EvBind (c : ldap.Conn) (username password : string) (r : option error)
| EvSearch (c : ldap.Conn) (req : ldap.SearchRequest)
    (r : ldap.SearchResult + error)
| EvAdd (c : ldap.Conn) (req : ldap.AddRequest) (r : option error)
| EvModify (c : ldap.Conn) (req : ldap.ModifyRequest) (r : option error)
| EvClose (c : ldap.Conn).

Definition isBind (ev : Event) : bool :=
  match ev with EvBind _ _ _ _ => true | _ => false end.

(** ** Operands of [fmt.Sprintf]

    The client formats strings and one [int] (the port). *)

Inductive operand : Type :=
| str (s : string)
| int (z : Z).

(** ** The external collaborators

    The directory and the network answer every request as a function of
    the history so far; nothing else is assumed of them.  [fmt_other] is
    Go's rendering of a format from a directive on that this development
    does not interpret (see [doPrintf]). *)

Record Extern : Type := mkExtern {
  Dial : list Event → string → string → ldap.Conn + error;
  DialTLS : list Event → string → string → tls.Config → ldap.Conn + error;
  StartTLS : list Event → ldap.Conn → tls.Config → option error;
  Bind : list Event → ldap.Conn → string → string → option error;
  Search : list Event → ldap.Conn → ldap.SearchRequest
           → ldap.SearchResult + error;
  Add : list Event → ldap.Conn → ldap.AddRequest → option error;
  Modify : list Event → ldap.Conn → ldap.ModifyRequest → option error;
  fmt_other : string → list operand → nat → string
}.

(** ** The client *)

Record LDAPClient : Type := mkLDAPClient {
  Attributes : list string;
  Base : string;
  BindDN : string;
  BindPassword : string;
  GroupFilter : string;
  Host : string;
  ServerName : string;
  UserFilter : string;
  Conn : option ldap.Conn;
  Port : Z;
  InsecureSkipVerify : bool;
  UseSSL : bool;
  SkipTLS : bool
}.

Definition setConn (c : option ldap.Conn) (lc : LDAPClient) : LDAPClient :=
  {| Attributes := Attributes lc; Base := Base lc; BindDN := BindDN lc;
     BindPassword := BindPassword lc; GroupFilter := GroupFilter lc;
     Host := Host lc; ServerName := ServerName lc;
     UserFilter := UserFilter lc; Conn := c; Port := Port lc;
     InsecureSkipVerify := InsecureSkipVerify lc; UseSSL := UseSSL lc;
     SkipTLS := SkipTLS lc |}.

(** The struct [AddUserAccount]; the name itself goes to the method. *)
Record AddUserAccountT : Type := mkAddUserAccount {
  Username : string;
  Password : string;
  OU : string;
  UID : Z;
  GID : Z
}.

(** ** State and monad *)

Record State : Type := mkState {
  client : LDAPClient;
  events : list Event
}.

(** [None] is a run-time panic. *)
Definition M (A : Type) : Type := State → option (A * State).

Definition ret {A} (a : A) : M A := λ s, Some (a, s).

Definition bind {A B} (m : M A) (k : A → M B) : M B :=
  λ s, match m s with
       | Some (a, s') => k a s'
       | None => None
       end.

Definition panic {A} : M A := λ _, None.

Notation "x <- m ;; k" := (bind m (λ x, k))
  (at level 100, m at next level, right associativity).
Notation "m ;;; k" := (bind m (λ _, k))
  (at level 100, right associativity).

Definition getClient : M LDAPClient := λ s, Some (client s, s).

Definition putConn (c : option ldap.Conn) : M unit :=
  λ s, Some (tt, {| client := setConn c (client s); events := events s |}).

(** Issue one request: ask the collaborator, log the exchange. *)
Definition issue {R} (answer : list Event → R) (ev : R → Event) : M R :=
  λ s, let r := answer (events s) in
       Some (r, {| client := client s; events := events s ++ [ev r] |}).

(** [lc.Conn.<method>]: a nil receiver panics. *)
Definition withConn {A} (k : ldap.Conn → M A) : M A :=
  lc <- getClient ;;
  match Conn lc with
  | Some c => k c
  | None => panic
  end.

(** ** [fmt.Sprintf] and [strconv.Itoa] *)

Definition Itoa (z : Z) : string := pretty z.

Definition typeName (x : operand) : string :=
  match x with str _ => "string" | int _ => "int" end.

(** The [%v] rendering of an operand. *)
Definition printValue (x : operand) : string :=
  match x with str s => s | int z => Itoa z end.

Definition badVerb (verb : ascii) (x : operand) : string :=
  "%!" +:+ String verb ("(" +:+ typeName x +:+ "=" +:+ printValue x +:+ ")").

Definition printArg (x : operand) (verb : ascii) : string :=
  match x with
  | str s => if (verb =? "s")%char || (verb =? "v")%char then s
             else badVerb verb x
  | int z => if (verb =? "d")%char || (verb =? "v")%char then Itoa z
             else badVerb verb x
  end.

Fixpoint extraList (xs : list operand) : string :=
  match xs with
  | [] => ""
  | [x] => typeName x +:+ "=" +:+ printValue x
  | x :: xs' => typeName x +:+ "=" +:+ printValue x +:+ ", " +:+ extraList xs'
  end.

(** The check after the format: operands that no directive consumed. *)
Definition extra (a : list operand) (argNum : nat) : string :=
  if bool_decide (argNum < length a)
  then "%!(EXTRA " +:+ extraList (drop argNum a) +:+ ")"
  else "".

Section Format.
Variable other : string → list operand → nat → string.

(** [fmt]'s format loop for the directives [%s], [%d], [%v] and [%%]
    written without flags, width, precision or argument index.  Any other
    directive hands the rest of the format, with the operands and the
    index of the next one, to [other]. *)
Fixpoint doPrintf (format : string) (a : list operand) (argNum : nat)
  : string :=
  match format with
  | EmptyString => extra a argNum
  | String c rest =>
      if (c =? "%")%char then
        match rest with
        | EmptyString => "%!(NOVERB)" +:+ extra a argNum
        | String verb rest' =>
            if (verb =? "%")%char then
              String "%"%char (doPrintf rest' a argNum)
            else if (verb =? "s")%char || (verb =? "d")%char
                    || (verb =? "v")%char then
              match a !! argNum with
              | Some x => printArg x verb +:+ doPrintf rest' a (S argNum)
              | None => "%!" +:+ String verb "(MISSING)"
                        +:+ doPrintf rest' a argNum
              end
            else other format a argNum
        end
      else String c (doPrintf rest a argNum)
  end.

Definition Sprintf (format : string) (a : list operand) : string :=
  doPrintf format a 0.
End Format.

(** ** The methods of [LDAPClient] *)

Section Client.
Context (ext : Extern).

(** The plaintext branch of [Connect]: [inr err] is its [return err]. *)
Definition dialStartTLS (lc : LDAPClient) (address : string)
  : M (ldap.Conn + error) :=
  r <- issue (λ h, Dial ext h "tcp" address) (EvDial "tcp" address) ;;
  match r with
  | inr err => ret (inr err)
  | inl l =>
      if negb (SkipTLS lc) then
        let config := tls.mkConfig true "" in
        err <- issue (λ h, StartTLS ext h l config) (EvStartTLS l config) ;;
        match err with
        | Some err => ret (inr err)
        | None => ret (inl l)
        end
      else ret (inl l)
  end.

(** The [UseSSL] branch of [Connect]. *)
Definition dialTLS (lc : LDAPClient) (address : string)
  : M (ldap.Conn + error) :=
  let config := tls.mkConfig (InsecureSkipVerify lc) (ServerName lc) in
  r <- issue (λ h, DialTLS ext h "tcp" address config)
             (EvDialTLS "tcp" address config) ;;
  match r with
  | inr err => ret (inr err)
  | inl l => ret (inl l)
  end.

Definition Connect : M (option error) :=
  lc <- getClient ;;
  match Conn lc with
  | None =>
      let address :=
        Sprintf (fmt_other ext) "%s:%d" [str (Host lc); int (Port lc)] in
      r <- (if negb (UseSSL lc) then dialStartTLS lc address
            else dialTLS lc address) ;;
      match r with
      | inr err => ret (Some err)
      | inl l => putConn (Some l) ;;; ret None
      end
  | Some _ => ret None
  end.

Definition Close : M unit :=
  lc <- getClient ;;
  match Conn lc with
  | Some c =>
      issue (λ _, tt) (λ _, EvClose c) ;;;
      putConn None
  | None => ret tt
  end.

(** [if lc.BindDN != "" && lc.BindPassword != "" { err := lc.Conn.Bind(...) }]:
    the guarded bind with the configured credentials that opens
    [Authenticate], [AddUser], [AddUserAccount] and [ChangeAttribute] and
    closes [Authenticate].  The answer is the [err] the caller tests. *)
Definition bindConfigured (lc : LDAPClient) : M (option error) :=
  if bool_decide (BindDN lc ≠ "") && bool_decide (BindPassword lc ≠ "") then
    withConn (λ c,
      issue (λ h, Bind ext h c (BindDN lc) (BindPassword lc))
            (EvBind c (BindDN lc) (BindPassword lc)))
  else ret None.

Definition Conn_Search (req : ldap.SearchRequest)
  : M (ldap.SearchResult + error) :=
  withConn (λ c, issue (λ h, Search ext h c req) (EvSearch c req)).

Definition Conn_Bind (username password : string) : M (option error) :=
  withConn (λ c,
    issue (λ h, Bind ext h c username password)
          (EvBind c username password)).

Definition Conn_Add (req : ldap.AddRequest) : M (option error) :=
  withConn (λ c, issue (λ h, Add ext h c req) (EvAdd c req)).

Definition Conn_Modify (req : ldap.ModifyRequest) : M (option error) :=
  withConn (λ c, issue (λ h, Modify ext h c req) (EvModify c req)).

(** The loop [for _, attr := range lc.Attributes { user[attr] = ... }]. *)
Definition collectAttributes (entry : ldap.Entry) (attrs : list string)
  : gmap string string :=
  foldl (λ user attr, <[attr := ldap.GetAttributeValue entry attr]> user)
        ∅ attrs.

(** The map of the result is [None] where the code returns a nil map. *)
Definition Authenticate (username password : string)
  : M (bool * option (gmap string string) * option error) :=
  err <- Connect ;;
  match err with
  | Some _ => ret (false, None, err)
  | None =>
  lc <- getClient ;;
  err <- bindConfigured lc ;;
  match err with
  | Some _ => ret (false, None, err)
  | None =>
  let attributes := Attributes lc ++ ["dn"] in
  let searchRequest :=
    ldap.NewSearchRequest (Base lc)
      ldap.ScopeWholeSubtree ldap.NeverDerefAliases 0 0 false
      (Sprintf (fmt_other ext) (UserFilter lc) [str username])
      attributes
      [] in
  r <- Conn_Search searchRequest ;;
  match r with
  | inr err => ret (false, None, Some err)
  | inl sr =>
  if length (ldap.Entries sr) <? 1 then
    ret (false, None, Some (errors_New "User does not exist"))
  else if 1 <? length (ldap.Entries sr) then
    ret (false, None, Some (errors_New "Too many entries returned"))
  else
  match ldap.Entries sr !! 0 with
  | None => panic (A := bool * option (gmap string string) * option error)
  | Some entry =>
  let userDN := ldap.DN entry in
  let user := collectAttributes entry (Attributes lc) in
  err <- Conn_Bind userDN password ;;
  match err with
  | Some _ => ret (false, Some user, err)
  | None =>
  err <- bindConfigured lc ;;
  match err with
  | Some _ => ret (true, Some user, err)
  | None => ret (true, Some user, None)
  end end end end end end.

(** The three nested [range] loops of [Filter], appending one value at a
    time. *)
Definition flattenLoop (entries : list ldap.Entry) : list string :=
  foldl (λ result entry,
    foldl (λ result attr,
      foldl (λ result value, result ++ [value]) result (ldap.Values attr))
      result (ldap.Attributes entry))
    [] entries.

(** The slice of the result is [None] where the code returns nil. *)
Definition Filter (filter : string) (attributes : list string)
  : M (option (list string) * option error) :=
  err <- Connect ;;
  match err with
  | Some _ => ret (None, err)
  | None =>
  lc <- getClient ;;
  let searchRequest :=
    ldap.NewSearchRequest (Base lc)
      ldap.ScopeWholeSubtree ldap.NeverDerefAliases 0 0 false
      filter
      attributes
      [] in
  r <- Conn_Search searchRequest ;;
  match r with
  | inr err => ret (None, Some err)
  | inl sr => ret (Some (flattenLoop (ldap.Entries sr)), None)
  end end.

Definition GetGroupsOfUser (username : string)
  : M (option (list string) * option error) :=
  lc <- getClient ;;
  Filter (Sprintf (fmt_other ext) (GroupFilter lc) [str username]) ["cn"].

Definition AddUser (username password ou : string) : M (option error) :=
  err <- Connect ;;
  match err with
  | Some _ => ret err
  | None =>
  lc <- getClient ;;
  err <- bindConfigured lc ;;
  match err with
  | Some _ => ret err
  | None =>
  let userDN := Sprintf (fmt_other ext) "cn=%s,ou=%s,%s"
                  [str username; str ou; str (Base lc)] in
  let addRequest := ldap.NewAddRequest userDN in
  let addRequest :=
    ldap.AddRequest_Attribute addRequest "objectClass" ["inetOrgPerson"] in
  let addRequest :=
    ldap.AddRequest_Attribute addRequest "userPassword" [password] in
  let addRequest := ldap.AddRequest_Attribute addRequest "sn" [username] in
  let addRequest := ldap.AddRequest_Attribute addRequest "uid" [username] in
  Conn_Add addRequest
  end end.

Definition AddUserAccount (account : AddUserAccountT) : M (option error) :=
  err <- Connect ;;
  match err with
  | Some _ => ret err
  | None =>
  lc <- getClient ;;
  err <- bindConfigured lc ;;
  match err with
  | Some _ => ret err
  | None =>
  let userDN := Sprintf (fmt_other ext) "cn=%s,ou=%s,%s"
                  [str (Username account); str (OU account); str (Base lc)] in
  let addRequest := ldap.NewAddRequest userDN in
  let addRequest :=
    ldap.AddRequest_Attribute addRequest "objectClass"
      ["inetOrgPerson"; "posixAccount"] in
  let addRequest :=
    ldap.AddRequest_Attribute addRequest "uidNumber" [Itoa (UID account)] in
  let addRequest :=
    ldap.AddRequest_Attribute addRequest "gidNumber" [Itoa (GID account)] in
  let addRequest :=
    ldap.AddRequest_Attribute addRequest "userPassword" [Password account] in
  let addRequest :=
    ldap.AddRequest_Attribute addRequest "homeDirectory"
      ["/home/" +:+ Username account] in
  let addRequest :=
    ldap.AddRequest_Attribute addRequest "loginShell" ["/bin/bash"] in
  let addRequest :=
    ldap.AddRequest_Attribute addRequest "sn" [Username account] in
  let addRequest :=
    ldap.AddRequest_Attribute addRequest "uid" [Username account] in
  Conn_Add addRequest
  end end.

Definition ChangeAttribute (DN attribute : string) (values : list string)
  : M (option error) :=
  err <- Connect ;;
  match err with
  | Some _ => ret err
  | None =>
  lc <- getClient ;;
  err <- bindConfigured lc ;;
  match err with
  | Some _ => ret err
  | None =>
  let modifyRequest := ldap.NewModifyRequest DN in
  let attr := ldap.mkAttribute attribute values in
  let attributes : list ldap.Attribute := [] in
  let modifyRequest :=
    ldap.setReplaceAttributes modifyRequest (attributes ++ [attr]) in
  Conn_Modify modifyRequest
  end end.

Definition ChangeMembers (members : list string) (groupname ou : string)
  : M (option error) :=
  lc <- getClient ;;
  let DN := Sprintf (fmt_other ext) "cn=%s,ou=%s,%s"
              [str groupname; str ou; str (Base lc)] in
  ChangeAttribute DN "memberUid" members.

Definition ChangeDescription (description ou : string) : M (option error) :=
  lc <- getClient ;;
  let DN := Sprintf (fmt_other ext) "ou=%s,%s" [str ou; str (Base lc)] in
  ChangeAttribute DN "description" [description].

Definition ChangePassword (password username ou : string)
  : M (option error) :=
  lc <- getClient ;;
  let DN := Sprintf (fmt_other ext) "cn=%s,ou=%s,%s"
              [str username; str ou; str (Base lc)] in
  ChangeAttribute DN "userPassword" [password].

End Client.

(** ** Vocabulary of the statements *)

(** The events [Connect] can issue. *)
Definition isDialing (ev : Event) : bool :=
  match ev with
  | EvDial _ _ _ | EvDialTLS _ _ _ _ | EvStartTLS _ _ _ => true
  | _ => false
  end.

Definition isSearch (ev : Event) : bool :=
  match ev with EvSearch _ _ _ => true | _ => false end.

(** The guard [lc.BindDN != "" && lc.BindPassword != ""]. *)
Definition configured (lc : LDAPClient) : Prop :=
  BindDN lc ≠ "" ∧ BindPassword lc ≠ "".

(** The address [Connect] dials. *)
Definition address (lc : LDAPClient) : string :=
  Host lc +:+ ":" +:+ Itoa (Port lc).

(** The same client with another verification policy and server name. *)
Definition setVerify (b : bool) (n : string) (lc : LDAPClient) : LDAPClient :=
  {| Attributes := Attributes lc; Base := Base lc; BindDN := BindDN lc;
     BindPassword := BindPassword lc; GroupFilter := GroupFilter lc;
     Host := Host lc; ServerName := n;
     UserFilter := UserFilter lc; Conn := Conn lc; Port := Port lc;
     InsecureSkipVerify := b; UseSSL := UseSSL lc;
     SkipTLS := SkipTLS lc |}.

(** Go's [len] of a map and of a slice that may be nil. *)
Definition len_map (m : option (gmap string string)) : nat :=
  match m with None => 0 | Some m => size m end.

Definition len_slice (l : option (list string)) : nat :=
  match l with None => 0 | Some l => length l end.

(** The flattening in the words of the specification: the values of every
    attribute of every entry, entries first, then attributes, then values. *)
Definition flattened (entries : list ldap.Entry) : list string :=
  concat (map (λ e, concat (map ldap.Values (ldap.Attributes e))) entries).

(** The number of values across all attributes of all entries. *)
Definition valueCount (entries : list ldap.Entry) : nat :=
  sum_list (map (λ e, sum_list (map (λ a, length (ldap.Values a))
                                    (ldap.Attributes e))) entries).

(** A modify request with one replace operation and nothing else. *)
Definition replaceRequest (DN attribute : string) (values : list string)
  : ldap.ModifyRequest :=
  {| ldap.ModifyDN := DN; ldap.ModAddAttributes := [];
     ldap.DeleteAttributes := [];
     ldap.ReplaceAttributes := [ldap.mkAttribute attribute values] |}.

Section Shapes.
Context (ext : Extern).

(** The opening that [Authenticate], [AddUser], [AddUserAccount] and
    [ChangeAttribute] share: connect, then the guarded bind, each failure
    returned through [fail]; [k] is the rest of the method. *)
Definition guarded {A} (fail : option error → A) (k : LDAPClient → M A)
  : M A :=
  err <- Connect ext ;;
  match err with
  | Some _ => ret (fail err)
  | None =>
  lc <- getClient ;;
  err <- bindConfigured ext lc ;;
  match err with
  | Some _ => ret (fail err)
  | None => k lc
  end end.

(** What follows the dialing once the connection [c] is there: the
    guarded bind, then the events [Q] allows for the rest. *)
Inductive after_connect {A} (fail : option error → A)
    (Q : list Event → A → Prop) (lc : LDAPClient) (c : ldap.Conn)
  : list Event → A → Prop :=
| ac_bind_failed err :
    configured lc →
    after_connect fail Q lc c
      [EvBind c (BindDN lc) (BindPassword lc) (Some err)] (fail (Some err))
| ac_bound tail r :
    configured lc → Q tail r →
    after_connect fail Q lc c
      (EvBind c (BindDN lc) (BindPassword lc) None :: tail) r
| ac_not_configured tail r :
    ¬ configured lc → Q tail r →
    after_connect fail Q lc c tail r.

(** The search request of [Authenticate]. *)
Definition authRequest (lc : LDAPClient) (username : string)
  : ldap.SearchRequest :=
  ldap.NewSearchRequest (Base lc)
    ldap.ScopeWholeSubtree ldap.NeverDerefAliases 0 0 false
    (Sprintf (fmt_other ext) (UserFilter lc) [str username])
    (Attributes lc ++ ["dn"])
    [].

(** What [Authenticate] returns for an error before the search. *)
Definition authFail (err : option error)
  : bool * option (gmap string string) * option error :=
  (false, None, err).

(** [Authenticate] from the search on. *)
Definition authBody (username password : string) (lc : LDAPClient)
  : M (bool * option (gmap string string) * option error) :=
  r <- Conn_Search ext (authRequest lc username) ;;
  match r with
  | inr err => ret (false, None, Some err)
  | inl sr =>
  if length (ldap.Entries sr) <? 1 then
    ret (false, None, Some (errors_New "User does not exist"))
  else if 1 <? length (ldap.Entries sr) then
    ret (false, None, Some (errors_New "Too many entries returned"))
  else
  match ldap.Entries sr !! 0 with
  | None => panic (A := bool * option (gmap string string) * option error)
  | Some entry =>
  let userDN := ldap.DN entry in
  let user := collectAttributes entry (Attributes lc) in
  err <- Conn_Bind ext userDN password ;;
  match err with
  | Some _ => ret (false, Some user, err)
  | None =>
  err <- bindConfigured ext lc ;;
  match err with
  | Some _ => ret (true, Some user, err)
  | None => ret (true, Some user, None)
  end end end end.

(** The runs of [authBody] on the connection [c], one constructor for
    each [return] of [Authenticate] from the search on. *)
Inductive auth_tail (lc : LDAPClient) (c : ldap.Conn)
    (username password : string)
  : list Event → bool * option (gmap string string) * option error → Prop :=
| at_search_failed err :
    auth_tail lc c username password
      [EvSearch c (authRequest lc username) (inr err)]
      (false, None, Some err)
| at_no_entry sr :
    ldap.Entries sr = [] →
    auth_tail lc c username password
      [EvSearch c (authRequest lc username) (inl sr)]
      (false, None, Some (errors_New "User does not exist"))
| at_many_entries sr :
    1 < length (ldap.Entries sr) →
    auth_tail lc c username password
      [EvSearch c (authRequest lc username) (inl sr)]
      (false, None, Some (errors_New "Too many entries returned"))
| at_bind_failed sr e err :
    ldap.Entries sr = [e] →
    auth_tail lc c username password
      [EvSearch c (authRequest lc username) (inl sr);
       EvBind c (ldap.DN e) password (Some err)]
      (false, Some (collectAttributes e (Attributes lc)), Some err)
| at_rebound sr e a :
    ldap.Entries sr = [e] → configured lc →
    auth_tail lc c username password
      [EvSearch c (authRequest lc username) (inl sr);
       EvBind c (ldap.DN e) password None;
       EvBind c (BindDN lc) (BindPassword lc) a]
      (true, Some (collectAttributes e (Attributes lc)), a)
| at_bound sr e :
    ldap.Entries sr = [e] → ¬ configured lc →
    auth_tail lc c username password
      [EvSearch c (authRequest lc username) (inl sr);
       EvBind c (ldap.DN e) password None]
      (true, Some (collectAttributes e (Attributes lc)), None).

(** What [Authenticate] requests once the opening is over: the search
    comes first, and without configured credentials at most the bind as the
    matched entry follows it. *)
Definition search_first (lc : LDAPClient) (c : ldap.Conn)
    (username password : string) (rest : list Event) : Prop :=
  ∃ a rest',
    rest = EvSearch c (authRequest lc username) a :: rest' ∧
    (¬ configured lc →
       rest' = [] ∨
       ∃ sr e b, a = inl sr ∧ ldap.Entries sr = [e] ∧
                 rest' = [EvBind c (ldap.DN e) password b]).

(** The search request of [Filter]. *)
Definition filterRequest (lc : LDAPClient) (filter : string)
    (attributes : list string) : ldap.SearchRequest :=
  ldap.NewSearchRequest (Base lc)
    ldap.ScopeWholeSubtree ldap.NeverDerefAliases 0 0 false
    filter attributes [].

(** The add requests of [AddUser] and [AddUserAccount], written out. *)
Definition addUserRequest (lc : LDAPClient) (username password ou : string)
  : ldap.AddRequest :=
  {| ldap.AddDN := "cn=" +:+ username +:+ ",ou=" +:+ ou +:+ "," +:+ Base lc;
     ldap.AddAttributes :=
       [ldap.mkAttribute "objectClass" ["inetOrgPerson"];
        ldap.mkAttribute "userPassword" [password];
        ldap.mkAttribute "sn" [username];
        ldap.mkAttribute "uid" [username]] |}.

Definition addUserAccountRequest (lc : LDAPClient) (account : AddUserAccountT)
  : ldap.AddRequest :=
  {| ldap.AddDN := "cn=" +:+ Username account +:+ ",ou=" +:+ OU account
                    +:+ "," +:+ Base lc;
     ldap.AddAttributes :=
       [ldap.mkAttribute "objectClass" ["inetOrgPerson"; "posixAccount"];
        ldap.mkAttribute "uidNumber" [Itoa (UID account)];
        ldap.mkAttribute "gidNumber" [Itoa (GID account)];
        ldap.mkAttribute "userPassword" [Password account];
        ldap.mkAttribute "homeDirectory" ["/home/" +:+ Username account];
        ldap.mkAttribute "loginShell" ["/bin/bash"];
        ldap.mkAttribute "sn" [Username account];
        ldap.mkAttribute "uid" [Username account]] |}.

(** A run from [s] to [s'] with result [r] that binds with the configured
    credentials exactly when they are configured: after the dialing,
    either the connection failed and nothing else was requested, or, on
    the connection [c], the first request is that bind when both
    [BindDN] and [BindPassword] are set (its failure ends the run) and
    otherwise the operation [Q] itself. *)
Definition binds_iff_configured {A} (fail : option error → A)
    (Q : ldap.Conn → list Event → A → Prop) (s s' : State) (r : A) : Prop :=
  ∃ evc rest,
    events s' = events s ++ evc ++ rest ∧
    Forall (λ ev, isDialing ev = true) evc ∧
    ((Conn (client s') = None ∧ rest = [] ∧ ∃ err, r = fail (Some err))
     ∨ ∃ c, Conn (client s') = Some c ∧
         (configured (client s) →
            ∃ a rest',
              rest = EvBind c (BindDN (client s)) (BindPassword (client s)) a
                     :: rest'
              ∧ match a with
                | Some _ => rest' = [] ∧ r = fail a
                | None => Q c rest' r
                end) ∧
         (¬ configured (client s) → Q c rest r)).

End Shapes.

(** ** An example directory

    The client of [example_test.go] against a small directory: one person
    under [uid=alice], two entries under [uid=twin], two groups for
    [alice], and the read-only account of the example. *)

Module Example.

Definition serviceDN : string :=
  "uid=readonlysuer,ou=People,dc=example,dc=com".

Definition alice : ldap.Entry :=
  ldap.mkEntry "uid=alice,ou=People,dc=example,dc=com"
    [ldap.mkEntryAttribute "givenName" ["Alice"];
     ldap.mkEntryAttribute "sn" ["Liddell"];
     ldap.mkEntryAttribute "mail" ["alice@example.com"; "al@example.com"];
     ldap.mkEntryAttribute "uid" ["alice"]].

Definition twin1 : ldap.Entry :=
  ldap.mkEntry "uid=twin,ou=People,dc=example,dc=com"
    [ldap.mkEntryAttribute "uid" ["twin"]].

Definition twin2 : ldap.Entry :=
  ldap.mkEntry "uid=twin,ou=Guests,dc=example,dc=com"
    [ldap.mkEntryAttribute "uid" ["twin"]].

Definition staff : ldap.Entry :=
  ldap.mkEntry "cn=staff,ou=Groups,dc=example,dc=com"
    [ldap.mkEntryAttribute "cn" ["staff"]].

Definition wheel : ldap.Entry :=
  ldap.mkEntry "cn=wheel,ou=Groups,dc=example,dc=com"
    [ldap.mkEntryAttribute "cn" ["wheel"; "admins"]].

Definition invalidCredentials : error := ldap_Error 49 "Invalid Credentials".
Definition busy : error := ldap_Error 51 "Busy".
Definition networkError : error := ldap_Error 200 "Network Error".

Definition search (filter : string) : ldap.SearchResult + error :=
  if bool_decide (filter = "(uid=alice)") then
    inl (ldap.mkSearchResult [alice])
  else if bool_decide (filter = "(uid=twin)") then
    inl (ldap.mkSearchResult [twin1; twin2])
  else if bool_decide (filter = "(memberUid=alice)") then
    inl (ldap.mkSearchResult [staff; wheel])
  else inl (ldap.mkSearchResult []).

Definition checkPassword (dn password : string) : option error :=
  if bool_decide (dn = ldap.DN alice ∧ password = "secret")
     || bool_decide (dn = serviceDN ∧ password = "readonlypassword")
  then None else Some invalidCredentials.

Definition directory : Extern :=
  {| Dial := λ _ _ _, inl 1%positive;
     DialTLS := λ _ _ _ _, inl 1%positive;
     StartTLS := λ _ _ _, None;
     Bind := λ _ _ dn password, checkPassword dn password;
     Search := λ _ _ req, search (ldap.Filter req);
     Add := λ _ _ _, None;
     Modify := λ _ _ _, None;
     fmt_other := λ format _ _, format |}.

(** The same directory, except that it refuses the read-only account
    once some bind has been made on the connection. *)
Definition refusing : Extern :=
  {| Dial := Dial directory;
     DialTLS := DialTLS directory;
     StartTLS := StartTLS directory;
     Bind := λ h _ dn password,
       if bool_decide (dn = serviceDN) && existsb isBind h then Some busy
       else checkPassword dn password;
     Search := Search directory;
     Add := Add directory;
     Modify := Modify directory;
     fmt_other := fmt_other directory |}.

(** No server answers. *)
Definition unreachable : Extern :=
  {| Dial := λ _ _ _, inr networkError;
     DialTLS := λ _ _ _ _, inr networkError;
     StartTLS := StartTLS directory;
     Bind := Bind directory;
     Search := Search directory;
     Add := Add directory;
     Modify := Modify directory;
     fmt_other := fmt_other directory |}.

Definition lc0 : LDAPClient :=
  {| Attributes := ["givenName"; "sn"; "mail"; "uid"];
     Base := "dc=example,dc=com";
     BindDN := serviceDN;
     BindPassword := "readonlypassword";
     GroupFilter := "(memberUid=%s)";
     Host := "ldap.example.com";
     ServerName := "";
     UserFilter := "(uid=%s)";
     Conn := None;
     Port := 389;
     InsecureSkipVerify := false;
     UseSSL := false;
     SkipTLS := false |}.

(** The same client with the bind DN but no bind password. *)
Definition lc1 : LDAPClient :=
  {| Attributes := Attributes lc0; Base := Base lc0; BindDN := serviceDN;
     BindPassword := ""; GroupFilter := GroupFilter lc0;
     Host := Host lc0; ServerName := ServerName lc0;
     UserFilter := UserFilter lc0; Conn := None; Port := Port lc0;
     InsecureSkipVerify := false; UseSSL := false; SkipTLS := false |}.

Definition fresh : State := {| client := lc0; events := [] |}.
Definition fresh1 : State := {| client := lc1; events := [] |}.
Definition held : State :=
  {| client := setConn (Some 7%positive) lc0; events := [] |}.

End Example.

(** ** Vocabulary of the further properties *)

Definition isClose (ev : Event) : bool :=
  match ev with EvClose _ => true | _ => false end.

(** The requests made on the connection [c]; a dial is on none. *)
Definition onConn (c : ldap.Conn) (ev : Event) : bool :=
  match ev with
  | EvDial _ _ _ | EvDialTLS _ _ _ _ => false
  | EvStartTLS c' _ _ | EvBind c' _ _ _ | EvSearch c' _ _ | EvAdd c' _ _
  | EvModify c' _ _ | EvClose c' => bool_decide (c' = c)
  end.

(** From [s] to [s'] only [lc.Conn] may have changed, and a connection held
    in [s] is still the one held in [s']. *)
Definition keeps_client (s s' : State) : Prop :=
  client s' = setConn (Conn (client s')) (client s) ∧
  ∀ c, Conn (client s) = Some c → Conn (client s') = Some c.

(** A format without any [%]. *)
Fixpoint noPercent (format : string) : bool :=
  match format with
  | EmptyString => true
  | String c rest => negb (c =? "%")%char && noPercent rest
  end.

(** The five operations on the directory, as runs of the shared opening or
    of [Filter]: what they leave of the client and which requests they
    make. *)
Definition operation_run {A} (m : M A) (s : State) : Prop :=
  ∃ r s' evc rest,
    m s = Some (r, s') ∧
    events s' = events s ++ evc ++ rest ∧
    Forall (λ ev, isDialing ev = true) evc ∧
    ((client s' = client s ∧ Conn (client s) = None ∧ rest = [])
     ∨ ∃ c, client s' = setConn (Some c) (client s) ∧
            (Conn (client s) = None ∨ (Conn (client s) = Some c ∧ evc = [])) ∧
            Forall (λ ev, onConn c ev = true ∧ isClose ev = false) rest).

(** The run of [m] from [s] changes nothing of the client but [lc.Conn],
    keeps a held connection and closes none. *)
Definition kept {A} (m : M A) (s : State) : Prop :=
  ∃ r s' evs, m s = Some (r, s') ∧ events s' = events s ++ evs ∧
    keeps_client s s' ∧ Forall (λ ev, isClose ev = false) evs.

(** The run of [m] from [s] makes all its requests on [c], which is still
    held afterwards. *)
Definition reused {A} (c : ldap.Conn) (m : M A) (s : State) : Prop :=
  ∃ r s' evs, m s = Some (r, s') ∧ events s' = events s ++ evs ∧
    Conn (client s') = Some c ∧ Forall (λ ev, onConn c ev = true) evs.

Module Cases.

(** A server that accepts the plaintext dial and refuses the upgrade. *)
Definition noStartTLS : Extern :=
  {| Dial := λ _ _ _, inl 4%positive;
     DialTLS := DialTLS Example.directory;
     StartTLS := λ _ _ _, Some (ldap_Error 2 "Protocol Error");
     Bind := Bind Example.directory;
     Search := Search Example.directory;
     Add := Add Example.directory;
     Modify := Modify Example.directory;
     fmt_other := fmt_other Example.directory |}.

(** A directory whose searches fail. *)
Definition noSearch : Extern :=
  {| Dial := Dial Example.directory;
     DialTLS := DialTLS Example.directory;
     StartTLS := StartTLS Example.directory;
     Bind := Bind Example.directory;
     Search := λ _ _ _, inr Example.busy;
     Add := Add Example.directory;
     Modify := Modify Example.directory;
     fmt_other := fmt_other Example.directory |}.

(** The client of the example once connected. *)
Definition connected : State :=
  {| client := setConn (Some 1%positive) Example.lc0;
     events := [EvDial "tcp" "ldap.example.com:389" (inl 1%positive);
                EvStartTLS 1%positive (tls.mkConfig true "") None] |}.

(** A directory that answers every search with one entry whose only
    attribute has no value. *)
Definition bare : Extern :=
  {| Dial := Dial Example.directory;
     DialTLS := DialTLS Example.directory;
     StartTLS := StartTLS Example.directory;
     Bind := Bind Example.directory;
     Search := λ _ _ _,
       inl (ldap.mkSearchResult
              [ldap.mkEntry "cn=empty,dc=example,dc=com"
                 [ldap.mkEntryAttribute "cn" []]]);
     Add := Add Example.directory;
     Modify := Modify Example.directory;
     fmt_other := fmt_other Example.directory |}.

(** The client of the example with a user filter that has no [%s]. *)
Definition fixedFilter : State :=
  {| client :=
       {| Attributes := Attributes Example.lc0; Base := Base Example.lc0;
          BindDN := BindDN Example.lc0;
          BindPassword := BindPassword Example.lc0;
          GroupFilter := GroupFilter Example.lc0; Host := Host Example.lc0;
          ServerName := ServerName Example.lc0;
          UserFilter := "(objectClass=person)"; Conn := None;
          Port := Port Example.lc0; InsecureSkipVerify := false;
          UseSSL := false; SkipTLS := false |};
     events := [] |}.

Definition account : AddUserAccountT :=
  {| Username := "carol"; Password := "{MD5}abc"; OU := "people";
     UID := 1001; GID := 100 |}.

End Cases.

(** * Lemmas and theorems *)

Lemma append_empty_r (s : string) : s +:+ "" = s.
Proof.
  induction s as [|a s IH]; [done|].
  change (String a (s +:+ "") = String a s). by rewrite IH.
Qed.

Lemma Sprintf_host_port other h p :
  Sprintf other "%s:%d" [str h; int p] = h +:+ ":" +:+ Itoa p.
Proof. unfold Sprintf. cbn. by rewrite append_empty_r. Qed.

Lemma Sprintf_cn_ou_base other a b c :
  Sprintf other "cn=%s,ou=%s,%s" [str a; str b; str c]
  = "cn=" +:+ a +:+ ",ou=" +:+ b +:+ "," +:+ c.
Proof. unfold Sprintf. cbn. by rewrite append_empty_r. Qed.

Lemma Sprintf_ou_base other b c :
  Sprintf other "ou=%s,%s" [str b; str c] = "ou=" +:+ b +:+ "," +:+ c.
Proof. unfold Sprintf. cbn. by rewrite append_empty_r. Qed.

Ltac run :=
  unfold Conn_Search, Conn_Bind, Conn_Add, Conn_Modify; unfold withConn;
  unfold bind, ret, issue, getClient, putConn, panic; simpl.

Lemma setConn_same lc c : Conn lc = c → setConn c lc = lc.
Proof. destruct lc; simpl; by intros ->. Qed.

Section Connecting.
Context (ext : Extern).

(** Every run of [Connect]: what it returns, what it issued, and what it
    left in [lc.Conn]. *)
Lemma Connect_run s :
  ∃ r s' evs,
    Connect ext s = Some (r, s') ∧ events s' = events s ++ evs ∧
    Forall (λ ev, isDialing ev = true) evs ∧
    match r with
    | None => ∃ c, client s' = setConn (Some c) (client s)
                   ∧ (Conn (client s) = None ∨ (s' = s ∧ evs = []))
    | Some _ => s' = mkState (client s) (events s ++ evs)
                ∧ Conn (client s) = None
    end.
Proof.
  destruct s as [lc h]. unfold Connect, dialStartTLS, dialTLS. run.
  destruct (Conn lc) as [c|] eqn:Hc.
  { exists None, (mkState lc h), []. rewrite app_nil_r.
    repeat split; [constructor|]. exists c. split; [|by right].
    by rewrite setConn_same. }
  destruct (UseSSL lc); simpl.
  - destruct (DialTLS _ _ _ _ _) as [l|err] eqn:Hd; simpl.
    + eexists None, _, [_]. repeat split; [by repeat constructor|].
      exists l. split; [done|by left].
    + eexists (Some err), _, [_]. repeat split. by repeat constructor.
  - destruct (Dial _ _ _ _) as [l|err] eqn:Hd; simpl.
    2:{ eexists (Some err), _, [_]. repeat split. by repeat constructor. }
    destruct (SkipTLS lc); simpl.
    + eexists None, _, [_]. repeat split; [by repeat constructor|].
      exists l. split; [done|by left].
    + destruct (StartTLS _ _ _ _) as [err|] eqn:Ht; simpl.
      * eexists (Some err), _, [_; _]. rewrite <- app_assoc.
        repeat split. by repeat constructor.
      * eexists None, _, [_; _]. rewrite <- app_assoc.
        repeat split; [by repeat constructor|].
        exists l. split; [done|by left].
Qed.

(** C6. [Connect] on a client that already holds a connection returns nil
    and changes nothing, neither the client nor the history of requests;
    and whenever [Connect] returns an error, on whichever path, [lc.Conn]
    is nil afterwards.  [Connect] always returns. *)
Theorem Connect_noop_or_no_connection s :
  ∃ r s', Connect ext s = Some (r, s') ∧
    (∀ c, Conn (client s) = Some c → r = None ∧ s' = s) ∧
    (∀ err, r = Some err → Conn (client s') = None).
Proof.
  destruct (Connect_run s) as (r & s' & evs & Hrun & _ & _ & Hr).
  exists r, s'. split; [done|]. split.
  - intros c Hc. destruct r as [err|].
    + destruct Hr as [_ Hnone]. congruence.
    + destruct Hr as (c' & _ & [Hnone|[-> _]]); [congruence|done].
  - intros err ->. destruct Hr as [-> Hnone]. done.
Qed.

(** C8. Every run of [Connect] on a client that holds no connection, by
    configuration.  With [UseSSL] the one request is [DialTLS] with the
    client's [InsecureSkipVerify] and [ServerName].  Without [UseSSL] the
    dial is plaintext and, unless [SkipTLS], a successful dial is followed
    by [StartTLS] with [InsecureSkipVerify: true] and no server name; on
    that path the run is the same whatever the client's
    [InsecureSkipVerify] and [ServerName] are. *)
Theorem Connect_tls_policy s :
  Conn (client s) = None →
  ∃ r s' evs, Connect ext s = Some (r, s') ∧ events s' = events s ++ evs ∧
    (if UseSSL (client s) then
       ∃ a, evs = [EvDialTLS "tcp" (address (client s))
                     (tls.mkConfig (InsecureSkipVerify (client s))
                                   (ServerName (client s))) a]
     else
       (∀ b n, Connect ext (mkState (setVerify b n (client s)) (events s))
               = Some (r, mkState (setVerify b n (client s')) (events s'))) ∧
       if SkipTLS (client s) then
         ∃ a, evs = [EvDial "tcp" (address (client s)) a]
       else
         (∃ err, evs = [EvDial "tcp" (address (client s)) (inr err)]) ∨
         (∃ l a, evs = [EvDial "tcp" (address (client s)) (inl l);
                        EvStartTLS l (tls.mkConfig true "") a])).
Proof.
  destruct s as [lc h]. simpl. intros Hc.
  unfold Connect, dialStartTLS, dialTLS. run. rewrite Hc.
  rewrite !Sprintf_host_port. fold (address lc).
  destruct (UseSSL lc) eqn:Hssl; simpl.
  - destruct (DialTLS _ _ _ _ _) as [l|err]; simpl;
      eexists _, _, [_]; (split_and!; [done..|]); by eexists.
  - destruct (Dial _ _ _ _) as [l|err] eqn:Hd; simpl.
    2:{ eexists _, _, [_]. split_and!; [done..| |].
        - done.
        - destruct (SkipTLS lc); [by eexists|left; by eexists]. }
    destruct (SkipTLS lc) eqn:Hskip; simpl.
    + eexists _, _, [_]. split_and!; [done..| |by eexists].
      done.
    + destruct (StartTLS _ _ _ _) as [err|] eqn:Ht; simpl.
      * eexists _, _, [_; _]. rewrite <- app_assoc.
        split_and!; [done..| |right; by do 2 eexists].
        done.
      * eexists _, _, [_; _]. rewrite <- app_assoc.
        split_and!; [done..| |right; by do 2 eexists].
        done.
Qed.

End Connecting.

(** C7. [Close] has no error to return and always returns.  On a client
    with no connection it changes nothing; on a client holding [c] it closes
    [c] and sets [lc.Conn] to nil; a second [Close] right after the first
    changes nothing more, so that closing twice is closing once. *)
Theorem Close_idempotent s :
  ∃ s1, Close s = Some (tt, s1) ∧ Conn (client s1) = None ∧
    (Conn (client s) = None → s1 = s) ∧
    (∀ c, Conn (client s) = Some c →
       s1 = mkState (setConn None (client s)) (events s ++ [EvClose c])) ∧
    Close s1 = Some (tt, s1) ∧
    (Close ;;; Close) s = Close s.
Proof.
  destruct s as [lc h]. unfold Close. run.
  destruct (Conn lc) as [c|] eqn:Hc; simpl.
  - eexists. split; [done|]. simpl. repeat split; try done.
    intros c' [= <-]. done.
  - rewrite Hc. eexists. split; [done|]. simpl. rewrite Hc. repeat split; done.
Qed.

Section Runs.
Context (ext : Extern).

Lemma configured_spec lc :
  bool_decide (BindDN lc ≠ "") && bool_decide (BindPassword lc ≠ "") = true
  ↔ configured lc.
Proof.
  unfold configured.
  rewrite andb_true_iff, !bool_decide_eq_true. done.
Qed.

Lemma configured_setConn c lc : configured (setConn c lc) ↔ configured lc.
Proof. done. Qed.

(** The guarded bind on a client that holds [c]. *)
Lemma bindConfigured_run lc lc' c h :
  Conn lc = Some c →
  BindDN lc' = BindDN lc → BindPassword lc' = BindPassword lc →
  (configured lc ∧
     ∃ a, bindConfigured ext lc' (mkState lc h)
          = Some (a, mkState lc
              (h ++ [EvBind c (BindDN lc) (BindPassword lc) a])))
  ∨ (¬ configured lc ∧
       bindConfigured ext lc' (mkState lc h) = Some (None, mkState lc h)).
Proof.
  intros Hc HDN HPW. unfold bindConfigured. rewrite HDN, HPW.
  destruct (bool_decide (BindDN lc ≠ "") && bool_decide (BindPassword lc ≠ ""))
    eqn:Hb.
  - left. split; [by apply configured_spec|]. run. rewrite Hc. by eexists.
  - right. split; [|done]. rewrite <- configured_spec, Hb. done.
Qed.

(** How the shared opening ends, whatever the rest of the method is:
    the connection fails, the guarded bind fails, or the rest [k] runs on
    the connected client. *)
Lemma guarded_prefix {A} (fail : option error → A) s :
  ∃ evc, Forall (λ ev, isDialing ev = true) evc ∧
    ((∃ err, Conn (client s) = None ∧
        ∀ k, guarded ext fail k s
             = Some (fail (Some err), mkState (client s) (events s ++ evc)))
     ∨ ∃ c, let lc1 := setConn (Some c) (client s) in
         (Conn (client s) = None ∨ (Conn (client s) = Some c ∧ evc = [])) ∧
         ((∃ err, configured (client s) ∧
             ∀ k, guarded ext fail k s
                  = Some (fail (Some err),
                      mkState lc1 (events s ++ evc ++
                        [EvBind c (BindDN (client s))
                           (BindPassword (client s)) (Some err)])))
          ∨ (configured (client s) ∧
               ∀ k, guarded ext fail k s
                    = k lc1 (mkState lc1 (events s ++ evc ++
                        [EvBind c (BindDN (client s))
                           (BindPassword (client s)) None])))
          ∨ (¬ configured (client s) ∧
               ∀ k, guarded ext fail k s
                    = k lc1 (mkState lc1 (events s ++ evc))))).
Proof.
  destruct (Connect_run ext s) as (r1 & s1 & evc & Hrun & Hev & Hdial & Hr1).
  exists evc. split; [done|].
  destruct r1 as [err|].
  { destruct Hr1 as [-> Hnone]. left. exists err. split; [done|].
    intros k. unfold guarded, bind at 1. by rewrite Hrun. }
  destruct Hr1 as (c & Hcl & Hheld). right. exists c.
  assert (Hc : Conn (client s1) = Some c) by (by rewrite Hcl).
  split. { destruct Hheld as [|[<- ->]]; [by left|by right]. }
  destruct s1 as [lc1 h1]. simpl in *. subst h1 lc1.
  destruct (bindConfigured_run _ (setConn (Some c) (client s)) c
              (events s ++ evc) Hc eq_refl eq_refl)
    as [[Hcfg [a Hb]]|[Hcfg Hb]]; simpl in Hb.
  - destruct a as [err|]; [left; exists err|right; left]; (split; [done|]);
      intros k; unfold guarded, bind at 1; rewrite Hrun;
      unfold bind at 1, getClient at 1; simpl; unfold bind at 1;
      rewrite Hb, <- app_assoc; done.
  - right; right. split; [done|].
    intros k; unfold guarded, bind at 1; rewrite Hrun;
      unfold bind at 1, getClient at 1; simpl; unfold bind at 1;
      rewrite Hb; done.
Qed.

Lemma guarded_run {A} (fail : option error → A) (k : LDAPClient → M A)
    (Q : LDAPClient → ldap.Conn → list Event → A → Prop) :
  (∀ lc c h, Conn lc = Some c →
     ∃ r tail, k lc (mkState lc h) = Some (r, mkState lc (h ++ tail))
               ∧ Q lc c tail r) →
  ∀ s, ∃ r s' evc rest,
    guarded ext fail k s = Some (r, s') ∧
    events s' = events s ++ evc ++ rest ∧
    Forall (λ ev, isDialing ev = true) evc ∧
    ((∃ err, r = fail (Some err) ∧ rest = [] ∧ client s' = client s
             ∧ Conn (client s) = None)
     ∨ ∃ c, client s' = setConn (Some c) (client s) ∧
            (Conn (client s) = None ∨ (Conn (client s) = Some c ∧ evc = [])) ∧
            after_connect fail (Q (client s') c) (client s) c rest r).
Proof.
  intros Hk s.
  destruct (guarded_prefix fail s) as (evc & Hdial & Hcases).
  destruct Hcases as [(err & Hnone & Hg)|(c & Hheld & Hcases)].
  { eexists _, _, evc, []. split; [apply Hg|]. simpl. rewrite app_nil_r.
    split_and!; try done. left. by exists err. }
  destruct Hcases as [(err & Hcfg & Hg)|[(Hcfg & Hg)|(Hcfg & Hg)]].
  - eexists _, _, evc, [_]. split; [apply Hg|]. simpl.
    split_and!; try done. right. exists c. split_and!; try done.
    by constructor.
  - edestruct (Hk (setConn (Some c) (client s)) c) as (r & tail & Hrun & HQ);
      [done|].
    eexists r, _, evc, (_ :: tail). split; [rewrite Hg; apply Hrun|]. simpl.
    rewrite <- !app_assoc. split_and!; try done.
    right. exists c. split_and!; try done. by constructor.
  - edestruct (Hk (setConn (Some c) (client s)) c) as (r & tail & Hrun & HQ);
      [done|].
    eexists r, _, evc, tail. split; [rewrite Hg; apply Hrun|]. simpl.
    rewrite <- !app_assoc. split_and!; try done.
    right. exists c. split_and!; try done. by apply ac_not_configured.
Qed.

Lemma Authenticate_guarded username password :
  Authenticate ext username password
  = guarded ext authFail (authBody ext username password).
Proof. reflexivity. Qed.

Lemma authBody_run username password lc c h :
  Conn lc = Some c →
  ∃ r tail,
    authBody ext username password lc (mkState lc h)
    = Some (r, mkState lc (h ++ tail))
    ∧ auth_tail ext lc c username password tail r
    ∧ ∃ tail', tail = EvSearch c (authRequest ext lc username)
                        (Search ext h c (authRequest ext lc username))
                      :: tail'.
Proof.
  intros Hc. unfold authBody. run. rewrite Hc. simpl.
  destruct (Search ext h c _) as [sr|err] eqn:Hs; simpl.
  2:{ eexists _, [_]. split_and!; [done| |by eexists]. constructor. }
  destruct (ldap.Entries sr) as [|e [|e' es]] eqn:He; simpl.
  - eexists _, [_]. split_and!; [done| |by eexists]. by constructor.
  - rewrite Hc.
    destruct (Bind ext _ c (ldap.DN e) password) as [err|] eqn:Hb; simpl.
    { eexists _, [_; _]. rewrite <- app_assoc.
      split_and!; [done| |by eexists]. by constructor. }
    edestruct (bindConfigured_run lc lc c) as [[Hcfg [a Hb']]|[Hcfg Hb']];
      [done..| |]; rewrite Hb'.
    + eexists _, [_; _; _]. rewrite <- !app_assoc. simpl.
      split_and!; [by destruct a| |by eexists]. destruct a; by constructor.
    + eexists _, [_; _]. rewrite <- !app_assoc. simpl.
      split_and!; [done| |by eexists]. by constructor.
  - eexists _, [_]. split_and!; [done| |by eexists].
    constructor. rewrite He. simpl. lia.
Qed.

(** Where the search did not return exactly one entry, [authBody] never
    looks at the password. *)
Lemma authBody_password username password password' lc c h sr :
  Conn lc = Some c →
  Search ext h c (authRequest ext lc username) = inl sr →
  length (ldap.Entries sr) ≠ 1 →
  authBody ext username password lc (mkState lc h)
  = authBody ext username password' lc (mkState lc h).
Proof.
  intros Hc Hs Hlen. unfold authBody. run. rewrite Hc. simpl.
  rewrite Hs. simpl.
  destruct (ldap.Entries sr) as [|e [|e' es]]; simpl in *; done.
Qed.

Lemma auth_tail_setConn x lc c username password tail r :
  auth_tail ext (setConn x lc) c username password tail r →
  auth_tail ext lc c username password tail r.
Proof.
  intros H. destruct H.
  - apply (at_search_failed ext lc).
  - by apply (at_no_entry ext lc).
  - by apply (at_many_entries ext lc).
  - by apply (at_bind_failed ext lc).
  - by apply (at_rebound ext lc).
  - by apply (at_bound ext lc).
Qed.

Lemma auth_tail_shape lc c username password tail r :
  auth_tail ext lc c username password tail r →
  ∃ a tail', tail = EvSearch c (authRequest ext lc username) a :: tail'
             ∧ Forall (λ ev, isSearch ev = false) tail'.
Proof. intros H. destruct H; do 2 eexists; (split; [done|]); by repeat constructor. Qed.

Lemma auth_tail_search_first lc c username password tail r :
  auth_tail ext lc c username password tail r →
  search_first ext lc c username password tail.
Proof.
  intros H. destruct H as [err | sr H0 | sr H0 | sr e err H0 | sr e a H0 Hcfg
                           | sr e H0 Hcfg];
    eexists _, _; (split; [done|]); intros Hn.
  - by left.
  - by left.
  - by left.
  - right. by exists sr, e, (Some err).
  - done.
  - right. by exists sr, e, None.
Qed.

Lemma unique_search (l1 l1' l2 l2' : list Event) x y :
  l1 ++ x :: l1' = l2 ++ y :: l2' →
  Forall (λ ev, isSearch ev = false) l1 →
  Forall (λ ev, isSearch ev = false) l1' →
  isSearch y = true →
  l2 = l1 ∧ y = x ∧ l2' = l1'.
Proof.
  revert l2. induction l1 as [|a l1 IH]; intros [|b l2] Heq H1 H1' Hy;
    simpl in Heq; injection Heq as Hhd Htl.
  - by subst.
  - subst. apply Forall_app in H1' as [_ H1'].
    apply Forall_cons in H1' as [H _]. congruence.
  - subst. apply Forall_cons in H1 as [H _]. congruence.
  - subst. apply Forall_cons in H1 as [_ H1].
    destruct (IH l2 Htl H1 H1' Hy) as (-> & -> & ->). done.
Qed.

Lemma dialing_not_search evs :
  Forall (λ ev, isDialing ev = true) evs →
  Forall (λ ev, isSearch ev = false) evs.
Proof. intros H. eapply Forall_impl; [exact H|]. by intros []. Qed.

Lemma no_search_in (l pre post : list Event) x :
  l = pre ++ x :: post → Forall (λ ev, isSearch ev = false) l →
  isSearch x = false.
Proof.
  intros -> H. apply Forall_app in H as [_ H].
  by apply Forall_cons in H as [H _].
Qed.

(** The search event of a run of [Authenticate] pins the run down: the
    request, the answer and the events before it, what follows it, and
    the run under any other password up to that point. *)
Lemma Authenticate_search_event username password s r s' pre c req a post :
  Authenticate ext username password s = Some (r, s') →
  events s' = events s ++ pre ++ EvSearch c req a :: post →
  let lc1 := setConn (Some c) (client s) in
  req = authRequest ext (client s) username ∧
  a = Search ext (events s ++ pre) c req ∧
  auth_tail ext (client s) c username password (EvSearch c req a :: post) r ∧
  (∃ evc sb, pre = evc ++ sb ∧ Forall (λ ev, isDialing ev = true) evc ∧
     ((configured (client s) ∧
         sb = [EvBind c (BindDN (client s)) (BindPassword (client s)) None])
      ∨ (¬ configured (client s) ∧ sb = []))) ∧
  (∀ password',
     Authenticate ext username password' s
     = authBody ext username password' lc1 (mkState lc1 (events s ++ pre))).
Proof.
  rewrite Authenticate_guarded. intros Hrun Hev lc1.
  destruct (guarded_prefix authFail s)
    as (evc & Hdial & Hcases).
  pose proof (dialing_not_search _ Hdial) as Hns.
  destruct Hcases as [(err & Hnone & Hg)|(c1 & Hheld & Hcases)].
  { rewrite Hg in Hrun. injection Hrun as <- <-. simpl in Hev.
    apply app_inv_head in Hev.
    by pose proof (no_search_in _ _ _ _ Hev Hns). }
  destruct Hcases as [(err & Hcfg & Hg)|Hcases].
  { rewrite Hg in Hrun. injection Hrun as <- <-. simpl in Hev.
    apply app_inv_head in Hev.
    assert (Forall (λ ev, isSearch ev = false)
              (evc ++ [EvBind c1 (BindDN (client s))
                         (BindPassword (client s)) (Some err)])) as H.
    { apply Forall_app. split; [done|by repeat constructor]. }
    by pose proof (no_search_in _ _ _ _ Hev H). }
  assert (∃ sb,
    ((configured (client s) ∧
        sb = [EvBind c1 (BindDN (client s)) (BindPassword (client s)) None])
     ∨ (¬ configured (client s) ∧ sb = [])) ∧
    ∀ k, guarded ext authFail k s
         = k (setConn (Some c1) (client s))
             (mkState (setConn (Some c1) (client s))
                      (events s ++ evc ++ sb))) as (sb & Hsb & Hg).
  { destruct Hcases as [[Hcfg Hg]|[Hcfg Hg]].
    - eexists. split; [left; done|]. done.
    - exists []. split; [right; done|]. by rewrite app_nil_r. }
  rewrite Hg in Hrun.
  edestruct (authBody_run username password (setConn (Some c1) (client s)) c1)
    as (r0 & tail & Hrun0 & Htail & tail' & ->); [done|].
  rewrite Hrun0 in Hrun. injection Hrun as <- <-. simpl in Hev.
  apply auth_tail_setConn in Htail.
  destruct (auth_tail_shape _ _ _ _ _ _ Htail) as (a1 & tl & Hshape & Hnst).
  injection Hshape as _ <-. subst lc1.
  change (authRequest ext (setConn (Some c1) (client s)) username)
    with (authRequest ext (client s) username) in *.
  rewrite <- !app_assoc in Hev. apply app_inv_head in Hev.
  rewrite app_assoc in Hev.
  apply unique_search in Hev as (-> & Hx & ->); [| |done..].
  2:{ apply Forall_app. split; [done|].
      destruct Hsb as [[_ ->]|[_ ->]]; by repeat constructor. }
  injection Hx as -> -> ->.
  split_and!; try done.
  - by exists evc, sb.
  - intros password'. by rewrite Authenticate_guarded, Hg.
Qed.

Lemma Authenticate_returns username password s :
  ∃ r s', Authenticate ext username password s = Some (r, s').
Proof.
  rewrite Authenticate_guarded.
  destruct (guarded_run authFail (authBody ext username password)
              (λ lc c tail r, auth_tail ext lc c username password tail r))
    with (s := s) as (r & s' & _ & _ & Hrun & _).
  - intros lc c h Hc.
    destruct (authBody_run username password lc c h Hc)
      as (r & tail & Hrun & Htail & _).
    by exists r, tail.
  - by exists r, s'.
Qed.

(** The attribute map [Authenticate] builds from the entry. *)
Lemma collect_lookup e attrs (m : gmap string string) attr :
  foldl (λ user a, <[a := ldap.GetAttributeValue e a]> user) m attrs !! attr
  = if decide (attr ∈ attrs) then Some (ldap.GetAttributeValue e attr)
    else m !! attr.
Proof.
  revert m. induction attrs as [|a attrs IH]; intros m.
  - done.
  - cbn [foldl]. rewrite IH, (lookup_insert m a attr).
    destruct (decide (attr ∈ attrs)) as [Hin|Hin].
    + rewrite decide_True; [done|apply elem_of_cons; by right].
    + destruct (decide (a = attr)) as [->|Hne].
      * rewrite decide_True; [done|apply elem_of_cons; by left].
      * rewrite decide_False; [done|].
        intros [?|?]%elem_of_cons; congruence.
Qed.

Lemma collectAttributes_lookup e attrs attr :
  collectAttributes e attrs !! attr
  = if decide (attr ∈ attrs) then Some (ldap.GetAttributeValue e attr)
    else None.
Proof. unfold collectAttributes. by rewrite collect_lookup, lookup_empty. Qed.

(** C1. [Authenticate] always returns, and on every run in which the
    search answered with exactly one entry [e]: the next request is the
    bind as [e]'s DN with the supplied password.  The map [user] maps
    every configured attribute to [e]'s value for it (and nothing else).
    If that bind succeeded the result is [true] with [user], and the error
    is nil or the answer of the rebind with the configured credentials;
    if it failed the result is [false], the same [user] and the error of
    the bind, and nothing more is requested. *)
Theorem Authenticate_single_match username password s :
  ∃ r s', Authenticate ext username password s = Some (r, s') ∧
    ∀ pre c req sr e post,
      events s' = events s ++ pre ++ EvSearch c req (inl sr) :: post →
      ldap.Entries sr = [e] →
      ∃ user a post',
        post = EvBind c (ldap.DN e) password a :: post' ∧
        (∀ attr, attr ∈ Attributes (client s) →
                 user !! attr = Some (ldap.GetAttributeValue e attr)) ∧
        (∀ attr, attr ∉ Attributes (client s) → user !! attr = None) ∧
        match a with
        | None =>
            ∃ err, r = (true, Some user, err) ∧
              (err = None ∨
               (configured (client s) ∧
                post' = [EvBind c (BindDN (client s))
                           (BindPassword (client s)) err]))
        | Some _ => r = (false, Some user, a) ∧ post' = []
        end.
Proof.
  destruct (Authenticate_returns username password s) as (r & s' & Hrun).
  exists r, s'. split; [done|]. intros pre c req sr e post Hev He.
  destruct (Authenticate_search_event _ _ _ _ _ _ _ _ _ _ Hrun Hev)
    as (_ & _ & Htail & _ & _).
  assert (∀ attr, attr ∈ Attributes (client s) →
            collectAttributes e (Attributes (client s)) !! attr
            = Some (ldap.GetAttributeValue e attr)) as Hin.
  { intros attr H. by rewrite collectAttributes_lookup, decide_True. }
  assert (∀ attr, attr ∉ Attributes (client s) →
            collectAttributes e (Attributes (client s)) !! attr = None)
    as Hout.
  { intros attr H. by rewrite collectAttributes_lookup, decide_False. }
  inversion Htail as [| sr' H0 | sr' H0 | sr' e' err H0 | sr' e' a H0 Hcfg
                      | sr' e' H0 Hcfg]; subst;
    rewrite He in H0; simplify_eq/=; try lia.
  - eexists _, (Some err), []. split_and!; done.
  - eexists _, None, [_]. split_and!; try done.
    exists a. split; [done|]. right. done.
  - eexists _, None, []. split_and!; try done.
    exists None. split; [done|]. by left.
Qed.

(** C2. On every run of [Authenticate] in which the search answered with
    a number of entries other than one, the result is [false] with an
    error: for no entry the nil map, which has no element, and the error
    "User does not exist"; for more than one entry the error "Too many
    entries returned".  Nothing is requested after the search, before it
    only the dialing and the bind with the configured credentials, and the
    run is the same under every other password. *)
Theorem Authenticate_no_unique_match username password s :
  ∃ r s', Authenticate ext username password s = Some (r, s') ∧
    ∀ pre c req sr post,
      events s' = events s ++ pre ++ EvSearch c req (inl sr) :: post →
      length (ldap.Entries sr) ≠ 1 →
      (∃ m err, r = (false, m, Some err) ∧
         (length (ldap.Entries sr) = 0 →
            m = None ∧ len_map m = 0
            ∧ err = errors_New "User does not exist") ∧
         (1 < length (ldap.Entries sr) →
            err = errors_New "Too many entries returned")) ∧
      post = [] ∧
      Forall (λ ev, isDialing ev = true
                    ∨ ev = EvBind c (BindDN (client s))
                             (BindPassword (client s)) None) pre ∧
      ∀ password',
        Authenticate ext username password' s = Some (r, s').
Proof.
  destruct (Authenticate_returns username password s) as (r & s' & Hrun).
  exists r, s'. split; [done|]. intros pre c req sr post Hev Hlen.
  destruct (Authenticate_search_event _ _ _ _ _ _ _ _ _ _ Hrun Hev)
    as (Hreq & Ha & Htail & (evc & sb & -> & Hdial & Hsb) & Hpw).
  split_and!.
  - inversion Htail as [| sr' H0 | sr' H0 | sr' e' err H0 | sr' e' a H0 Hcfg
                        | sr' e' H0 Hcfg]; subst;
      try (rewrite H0 in Hlen; simpl in Hlen; lia).
    + eexists None, _. split; [done|]. rewrite H0. simpl.
      split; [done|lia].
    + eexists None, _. split; [done|]. split; [lia|done].
  - inversion Htail as [| sr' H0 | sr' H0 | sr' e' err H0 | sr' e' a H0 Hcfg
                        | sr' e' H0 Hcfg]; subst; try done;
      rewrite H0 in Hlen; simpl in Hlen; lia.
  - apply Forall_app. split.
    + eapply Forall_impl; [exact Hdial|]. by left.
    + destruct Hsb as [[_ ->]|[_ ->]]; [|by constructor].
      apply Forall_cons. split; [by right|by constructor].
  - intros password'. rewrite Hpw. rewrite Hpw in Hrun. rewrite <- Hrun.
    symmetry. eapply authBody_password; [done| |exact Hlen].
    rewrite Ha, Hreq. done.
Qed.

(** C3. On every run of [Authenticate] in which the bind as the matched
    entry succeeded and the rebind with the configured credentials that
    follows it failed, the result is [true], with the attribute map of the
    entry and the error of the rebind. *)
Theorem Authenticate_rebind_failure username password s :
  ∃ r s', Authenticate ext username password s = Some (r, s') ∧
    ∀ pre c req sr e err post,
      configured (client s) →
      ldap.Entries sr = [e] →
      events s' = events s ++ pre ++
        EvSearch c req (inl sr)
        :: EvBind c (ldap.DN e) password None
        :: EvBind c (BindDN (client s)) (BindPassword (client s)) (Some err)
        :: post →
      ∃ user,
        r = (true, Some user, Some err) ∧ post = [] ∧
        (∀ attr, attr ∈ Attributes (client s) →
                 user !! attr = Some (ldap.GetAttributeValue e attr)) ∧
        (∀ attr, attr ∉ Attributes (client s) → user !! attr = None).
Proof.
  destruct (Authenticate_returns username password s) as (r & s' & Hrun).
  exists r, s'. split; [done|]. intros pre c req sr e err post Hcfg He Hev.
  destruct (Authenticate_search_event _ _ _ _ _ _ _ _ _ _ Hrun Hev)
    as (_ & _ & Htail & _ & _).
  inversion Htail as [| sr' H0 | sr' H0 | sr' e' err' H0 | sr' e' a H0 Hcfg'
                      | sr' e' H0 Hcfg']; subst.
  rewrite He in H0. simplify_eq/=.
  eexists. split_and!; try done.
  - intros attr H. by rewrite collectAttributes_lookup, decide_True.
  - intros attr H. by rewrite collectAttributes_lookup, decide_False.
Qed.

(** From the runs of the shared opening to [binds_iff_configured]. *)
Lemma guarded_binds_iff_configured {A} (fail : option error → A)
    (k : LDAPClient → M A) (Q : LDAPClient → ldap.Conn → list Event → A → Prop)
    (Q' : ldap.Conn → list Event → A → Prop) s :
  (∀ lc c h, Conn lc = Some c →
     ∃ r tail, k lc (mkState lc h) = Some (r, mkState lc (h ++ tail))
               ∧ Q lc c tail r) →
  (∀ c c' tail r, Q (setConn c' (client s)) c tail r → Q' c tail r) →
  ∃ r s', guarded ext fail k s = Some (r, s')
          ∧ binds_iff_configured fail Q' s s' r.
Proof.
  intros Hk HQ.
  destruct (guarded_run fail k Q Hk s)
    as (r & s' & evc & rest & Hrun & Hev & Hdial & Hcases).
  exists r, s'. split; [done|]. exists evc, rest. split_and!; try done.
  destruct Hcases as [(err & -> & -> & Hcl & Hnone)|(c & Hcl & _ & Hac)].
  { left. rewrite Hcl. split_and!; try done. by exists err. }
  right. exists c. rewrite Hcl in *. split; [done|].
  destruct Hac as [err Hcfg | tail r Hcfg Htail | tail r Hcfg Htail].
  - split; [|done]. intros _. by eexists (Some err), [].
  - split; [|done]. intros _. exists None, tail. split; [done|].
    by eapply HQ.
  - split; [done|]. intros _. by eapply HQ.
Qed.

Lemma Conn_Add_run req lc c h :
  Conn lc = Some c →
  ∃ r tail, Conn_Add ext req (mkState lc h) = Some (r, mkState lc (h ++ tail))
            ∧ tail = [EvAdd c req r].
Proof. intros Hc. run. rewrite Hc. by eexists _, [_]. Qed.

Lemma Conn_Modify_run req lc c h :
  Conn lc = Some c →
  ∃ r tail,
    Conn_Modify ext req (mkState lc h) = Some (r, mkState lc (h ++ tail))
    ∧ tail = [EvModify c req r].
Proof. intros Hc. run. rewrite Hc. by eexists _, [_]. Qed.

Lemma AddUser_guarded username password ou s :
  AddUser ext username password ou s
  = guarded ext (λ err, err)
      (λ lc, Conn_Add ext (addUserRequest lc username password ou)) s.
Proof.
  unfold AddUser, guarded, addUserRequest, bind.
  destruct (Connect ext s) as [[[err|] s1]|]; try done.
  unfold getClient.
  destruct (bindConfigured ext (client s1) s1) as [[[err|] s2]|]; try done.
  by rewrite Sprintf_cn_ou_base.
Qed.

Lemma AddUserAccount_guarded account s :
  AddUserAccount ext account s
  = guarded ext (λ err, err)
      (λ lc, Conn_Add ext (addUserAccountRequest lc account)) s.
Proof.
  unfold AddUserAccount, guarded, addUserAccountRequest, bind.
  destruct (Connect ext s) as [[[err|] s1]|]; try done.
  unfold getClient.
  destruct (bindConfigured ext (client s1) s1) as [[[err|] s2]|]; try done.
  by rewrite Sprintf_cn_ou_base.
Qed.

Lemma ChangeAttribute_guarded DN attribute values :
  ChangeAttribute ext DN attribute values
  = guarded ext (λ err, err)
      (λ _, Conn_Modify ext (replaceRequest DN attribute values)).
Proof. reflexivity. Qed.

(** C10. [Authenticate], [AddUser], [AddUserAccount] and
    [ChangeAttribute] always return, and each binds with the configured
    credentials exactly when both [BindDN] and [BindPassword] are not
    empty: then that bind is the first request on the connection.  When
    either is empty no such bind is made and the first request is the
    operation itself, the search of [Authenticate] (followed at most by the
    bind as the matched entry), the add or the modify, whose answer is the
    result. *)
Theorem service_bind_iff_both_set s :
  (∀ username password,
     ∃ r s', Authenticate ext username password s = Some (r, s') ∧
       binds_iff_configured authFail
         (λ c rest _, search_first ext (client s) c username password rest)
         s s' r) ∧
  (∀ username password ou,
     ∃ r s', AddUser ext username password ou s = Some (r, s') ∧
       binds_iff_configured (λ err, err)
         (λ c rest r,
            rest = [EvAdd c (addUserRequest (client s) username password ou)
                      r]) s s' r) ∧
  (∀ account,
     ∃ r s', AddUserAccount ext account s = Some (r, s') ∧
       binds_iff_configured (λ err, err)
         (λ c rest r,
            rest = [EvAdd c (addUserAccountRequest (client s) account) r])
         s s' r) ∧
  (∀ DN attribute values,
     ∃ r s', ChangeAttribute ext DN attribute values s = Some (r, s') ∧
       binds_iff_configured (λ err, err)
         (λ c rest r,
            rest = [EvModify c (replaceRequest DN attribute values) r])
         s s' r).
Proof.
  split_and!.
  - intros username password. rewrite Authenticate_guarded.
    apply guarded_binds_iff_configured
      with (Q := λ lc c tail r, auth_tail ext lc c username password tail r).
    + intros lc c h Hc.
      destruct (authBody_run username password lc c h Hc)
        as (r & tail & Hrun & Htail & _).
      by exists r, tail.
    + intros c c' tail r Htail. apply auth_tail_search_first with r.
      by apply auth_tail_setConn in Htail.
  - intros username password ou. rewrite AddUser_guarded.
    apply guarded_binds_iff_configured
      with (Q := λ lc c tail r,
              tail = [EvAdd c (addUserRequest lc username password ou) r]).
    + intros lc c h Hc. by apply Conn_Add_run.
    + by intros c c' tail r ->.
  - intros account. rewrite AddUserAccount_guarded.
    apply guarded_binds_iff_configured
      with (Q := λ lc c tail r,
              tail = [EvAdd c (addUserAccountRequest lc account) r]).
    + intros lc c h Hc. by apply Conn_Add_run.
    + by intros c c' tail r ->.
  - intros DN attribute values. rewrite ChangeAttribute_guarded.
    apply guarded_binds_iff_configured
      with (Q := λ lc c tail r,
              tail = [EvModify c (replaceRequest DN attribute values) r]).
    + intros lc c h Hc. by apply Conn_Modify_run.
    + by intros c c' tail r ->.
Qed.

(** C9. [ChangeMembers], [ChangePassword] and [ChangeDescription] are
    [ChangeAttribute] on the DN [cn=<name>,ou=<ou>,<base>] (for the
    description [ou=<ou>,<base>]) with the attribute [memberUid],
    [userPassword] and [description], the last two with the one value
    given.  [ChangeAttribute] always returns; after the dialing and the
    bind it either stops with an error or issues one modify request, whose
    only operation replaces the attribute by the values given, and returns
    its answer. *)
Theorem Change_wrappers s :
  (∀ members groupname ou,
     ChangeMembers ext members groupname ou s
     = ChangeAttribute ext
         ("cn=" +:+ groupname +:+ ",ou=" +:+ ou +:+ "," +:+ Base (client s))
         "memberUid" members s) ∧
  (∀ password username ou,
     ChangePassword ext password username ou s
     = ChangeAttribute ext
         ("cn=" +:+ username +:+ ",ou=" +:+ ou +:+ "," +:+ Base (client s))
         "userPassword" [password] s) ∧
  (∀ description ou,
     ChangeDescription ext description ou s
     = ChangeAttribute ext ("ou=" +:+ ou +:+ "," +:+ Base (client s))
         "description" [description] s) ∧
  (∀ DN attribute values,
     ∃ r s' pre tail,
       ChangeAttribute ext DN attribute values s = Some (r, s') ∧
       events s' = events s ++ pre ++ tail ∧
       Forall (λ ev, isDialing ev = true ∨ isBind ev = true) pre ∧
       ((tail = [] ∧ r ≠ None)
        ∨ ∃ c, tail = [EvModify c (replaceRequest DN attribute values) r])).
Proof.
  split_and!.
  - intros. unfold ChangeMembers, bind, getClient.
    by rewrite Sprintf_cn_ou_base.
  - intros. unfold ChangePassword, bind, getClient.
    by rewrite Sprintf_cn_ou_base.
  - intros. unfold ChangeDescription, bind, getClient.
    by rewrite Sprintf_ou_base.
  - intros DN attribute values. rewrite ChangeAttribute_guarded.
    destruct (guarded_run (λ err, err)
                (λ _, Conn_Modify ext (replaceRequest DN attribute values))
                (λ _ c tail r,
                   tail = [EvModify c (replaceRequest DN attribute values) r]))
      with (s := s) as (r & s' & evc & rest & Hrun & Hev & Hdial & Hcases).
    { intros lc c h Hc. by apply Conn_Modify_run. }
    assert (Forall (λ ev, isDialing ev = true ∨ isBind ev = true) evc) as Hd.
    { eapply Forall_impl; [exact Hdial|]. by left. }
    exists r, s'.
    destruct Hcases as [(err & -> & -> & _)|(c & _ & _ & Hac)].
    { exists evc, []. split_and!; try done. by left. }
    destruct Hac as [err Hcfg | tail r Hcfg -> | tail r Hcfg ->].
    + exists (evc ++ [EvBind c (BindDN (client s)) (BindPassword (client s))
                        (Some err)]), [].
      rewrite <- app_assoc, app_nil_r. split_and!; [done..| |by left].
      apply Forall_app. split; [done|].
      apply Forall_cons. split; [by right|constructor].
    + exists (evc ++ [EvBind c (BindDN (client s)) (BindPassword (client s))
                        None]),
             [EvModify c (replaceRequest DN attribute values) r].
      rewrite <- app_assoc. split_and!; [done..| |right; by exists c].
      apply Forall_app. split; [done|].
      apply Forall_cons. split; [by right|constructor].
    + exists evc, [EvModify c (replaceRequest DN attribute values) r].
      split_and!; [done..|]. right. by exists c.
Qed.

(** Every run of [Filter]. *)
Lemma Filter_run filter attributes s :
  ∃ r s' evc rest,
    Filter ext filter attributes s = Some (r, s') ∧
    events s' = events s ++ evc ++ rest ∧
    Forall (λ ev, isDialing ev = true) evc ∧
    ((∃ err, r = (None, Some err) ∧ rest = [])
     ∨ ∃ c a,
         rest = [EvSearch c (filterRequest (client s) filter attributes) a] ∧
         r = match a with
             | inl sr => (Some (flattenLoop (ldap.Entries sr)), None)
             | inr err => (None, Some err)
             end).
Proof.
  unfold Filter.
  destruct (Connect_run ext s) as (r1 & s1 & evc & Hrun & Hev & Hdial & Hr1).
  unfold bind at 1. rewrite Hrun.
  destruct r1 as [err|].
  { eexists _, _, evc, []. split; [done|]. rewrite app_nil_r.
    split_and!; try done. left. by exists err. }
  destruct Hr1 as (c & Hcl & _).
  assert (Hc : Conn (client s1) = Some c) by (by rewrite Hcl).
  destruct s1 as [lc1 h1]. simpl in *. subst h1.
  run. rewrite Hc. simpl.
  replace (Base lc1) with (Base (client s)) by (by rewrite Hcl).
  fold (filterRequest (client s) filter attributes).
  destruct (Search ext _ c _) as [sr|err] eqn:Hs; simpl.
  - eexists _, _, evc, [_]. rewrite <- app_assoc. split_and!; try done.
    right. by exists c, (inl sr).
  - eexists _, _, evc, [_]. rewrite <- app_assoc. split_and!; try done.
    right. by exists c, (inr err).
Qed.

Lemma GetGroupsOfUser_Filter username s :
  GetGroupsOfUser ext username s
  = Filter ext
      (Sprintf (fmt_other ext) (GroupFilter (client s)) [str username])
      ["cn"] s.
Proof. reflexivity. Qed.

(** C5. [Filter] always returns and issues no bind, whatever the
    configured credentials are: its requests are the dialing of [Connect]
    and at most one search.  [GetGroupsOfUser] is [Filter] on the group
    filter formatted with the user name and the attribute [cn], and so
    issues no bind either. *)
Theorem Filter_never_binds s :
  (∀ filter attributes,
     ∃ r s' evs, Filter ext filter attributes s = Some (r, s') ∧
       events s' = events s ++ evs ∧
       Forall (λ ev, isBind ev = false) evs) ∧
  (∀ username,
     GetGroupsOfUser ext username s
     = Filter ext
         (Sprintf (fmt_other ext) (GroupFilter (client s)) [str username])
         ["cn"] s ∧
     ∃ r s' evs, GetGroupsOfUser ext username s = Some (r, s') ∧
       events s' = events s ++ evs ∧
       Forall (λ ev, isBind ev = false) evs).
Proof.
  assert (∀ filter attributes,
     ∃ r s' evs, Filter ext filter attributes s = Some (r, s') ∧
       events s' = events s ++ evs ∧
       Forall (λ ev, isBind ev = false) evs) as HF.
  { intros filter attributes.
    destruct (Filter_run filter attributes s)
      as (r & s' & evc & rest & Hrun & Hev & Hdial & Hcases).
    exists r, s', (evc ++ rest). split_and!; try done.
    apply Forall_app. split.
    - eapply Forall_impl; [exact Hdial|]. by intros [].
    - destruct Hcases as [(err & _ & ->)|(c & a & -> & _)];
        by repeat constructor. }
  split; [done|]. intros username. split; [done|].
  rewrite GetGroupsOfUser_Filter. apply HF.
Qed.

Lemma foldl_snoc (acc l : list string) :
  foldl (λ result value, result ++ [value]) acc l = acc ++ l.
Proof.
  revert acc. induction l as [|v l IH]; intros acc; simpl.
  - by rewrite app_nil_r.
  - by rewrite IH, <- app_assoc.
Qed.

Lemma foldl_values (acc : list string) (attrs : list ldap.EntryAttribute) :
  foldl (λ result attr,
           foldl (λ result value, result ++ [value]) result (ldap.Values attr))
        acc attrs
  = acc ++ concat (map ldap.Values attrs).
Proof.
  revert acc. induction attrs as [|a attrs IH]; intros acc; simpl.
  - by rewrite app_nil_r.
  - by rewrite IH, foldl_snoc, <- app_assoc.
Qed.

Lemma foldl_entries (acc : list string) (entries : list ldap.Entry) :
  foldl (λ result entry,
           foldl (λ result attr,
                    foldl (λ result value, result ++ [value]) result
                          (ldap.Values attr))
                 result (ldap.Attributes entry))
        acc entries
  = acc ++ flattened entries.
Proof.
  revert acc. induction entries as [|e entries IH]; intros acc; simpl.
  - by rewrite app_nil_r.
  - rewrite IH, foldl_values, <- app_assoc. done.
Qed.

(** The three loops of [Filter] compute the flattening. *)
Lemma flattenLoop_flattened entries : flattenLoop entries = flattened entries.
Proof. unfold flattenLoop. by rewrite foldl_entries. Qed.

Lemma length_concat_values (attrs : list ldap.EntryAttribute) :
  length (concat (map ldap.Values attrs))
  = sum_list (map (λ a, length (ldap.Values a)) attrs).
Proof.
  induction attrs as [|a attrs IH]; simpl; [done|].
  by rewrite length_app, IH.
Qed.

Lemma length_flattened entries :
  length (flattened entries) = valueCount entries.
Proof.
  unfold flattened, valueCount.
  induction entries as [|e entries IH]; simpl; [done|].
  by rewrite length_app, length_concat_values, IH.
Qed.

(** C4. [Filter] always returns.  On every run in which the search
    succeeded, the result is the flattening of the values of every
    attribute of every entry of the answer, entries first, then
    attributes, then values, with a nil error; its length is the number of
    values across all attributes of all entries; with no entry it is the
    empty slice.  A run that returns a nil error is such a run. *)
Theorem Filter_flattens filter attributes s :
  ∃ r s', Filter ext filter attributes s = Some (r, s') ∧
    (∀ pre c req sr post,
       events s' = events s ++ pre ++ EvSearch c req (inl sr) :: post →
       req = filterRequest (client s) filter attributes ∧ post = [] ∧
       r = (Some (flattened (ldap.Entries sr)), None) ∧
       len_slice r.1 = valueCount (ldap.Entries sr) ∧
       (ldap.Entries sr = [] → r = (Some [], None))) ∧
    (∀ result, r = (result, None) →
       ∃ pre c sr,
         events s' = events s ++ pre ++
           [EvSearch c (filterRequest (client s) filter attributes) (inl sr)]
         ∧ result = Some (flattened (ldap.Entries sr))).
Proof.
  destruct (Filter_run filter attributes s)
    as (r & s' & evc & rest & Hrun & Hev & Hdial & Hcases).
  pose proof (dialing_not_search _ Hdial) as Hns.
  exists r, s'. split; [done|]. split.
  - intros pre c req sr post Hev'. rewrite Hev in Hev'.
    apply app_inv_head in Hev'.
    destruct Hcases as [(err & -> & ->)|(c1 & a & -> & ->)].
    { rewrite app_nil_r in Hev'.
      by pose proof (no_search_in _ _ _ _ Hev' Hns). }
    apply unique_search in Hev' as (-> & Hx & ->); [|done|constructor|done].
    injection Hx as -> -> <-.
    rewrite flattenLoop_flattened. split_and!; try done.
    + simpl. apply length_flattened.
    + by intros ->.
  - intros result ->.
    destruct Hcases as [(err & [=] & _)|(c & a & -> & Hr)].
    destruct a as [sr|err]; [|done]. injection Hr as ->.
    exists evc, c, sr. by rewrite flattenLoop_flattened.
Qed.

End Runs.

(** * The example directory, run *)

(** A held connection is kept, and a dial that fails leaves none. *)
Lemma Connect_noop_or_no_connection_witness :
  Connect Example.directory Example.held = Some (None, Example.held) ∧
  ∃ err s', Connect Example.unreachable Example.fresh = Some (Some err, s')
            ∧ Conn (client s') = None.
Proof.
  split.
  - destruct (Connect_noop_or_no_connection Example.directory Example.held)
      as (r & s' & Hrun & Hheld & _).
    destruct (Hheld 7%positive eq_refl) as [-> ->]. exact Hrun.
  - destruct (Connect_noop_or_no_connection Example.unreachable Example.fresh)
      as (r & s' & Hrun & _ & Herr).
    exists Example.networkError, s'.
    assert (r = Some Example.networkError) as ->.
    { vm_compute in Hrun. by injection Hrun as <- _. }
    split; [exact Hrun|]. by apply (Herr Example.networkError).
Defined.

(** Closing the held connection, then closing again; closing the client
    that never connected. *)
Lemma Close_idempotent_witness :
  ∃ s1, Close Example.held = Some (tt, s1) ∧
        s1 = {| client := Example.lc0; events := [EvClose 7%positive] |} ∧
        Close s1 = Some (tt, s1) ∧
        Close Example.fresh = Some (tt, Example.fresh).
Proof.
  destruct (Close_idempotent Example.held)
    as (s1 & Hrun & _ & _ & Hheld & Hagain & _).
  exists s1. split_and!; [exact Hrun| |exact Hagain|].
  - exact (Hheld 7%positive eq_refl).
  - destruct (Close_idempotent Example.fresh) as (s2 & Hrun2 & _ & Hnone & _).
    rewrite (Hnone eq_refl) in Hrun2. exact Hrun2.
Defined.

(** The client of the example asks for verification ([InsecureSkipVerify]
    is false), and the upgrade skips it. *)
Lemma Connect_tls_policy_witness :
  InsecureSkipVerify (client Example.fresh) = false ∧
  ∃ r s', Connect Example.directory Example.fresh = Some (r, s') ∧
    events s' = [EvDial "tcp" "ldap.example.com:389" (inl 1%positive);
                 EvStartTLS 1%positive (tls.mkConfig true "") None].
Proof.
  split; [reflexivity|].
  destruct (Connect_tls_policy Example.directory Example.fresh eq_refl)
    as (r & s' & evs & Hrun & Hev & _ & [(err & ->)|(l & a & ->)]).
  - exfalso. vm_compute in Hrun. injection Hrun as _ <-. discriminate Hev.
  - exists r, s'. split; [exact Hrun|].
    vm_compute in Hrun. injection Hrun as _ <-. reflexivity.
Defined.

(** Alice with the right and with a wrong password. *)
Lemma Authenticate_single_match_witness :
  (∃ user s',
     Authenticate Example.directory "alice" "secret" Example.fresh
     = Some ((true, Some user, None), s')
     ∧ user !! "mail" = Some "alice@example.com" ∧ user !! "dn" = None) ∧
  (∃ user s',
     Authenticate Example.directory "alice" "wrong" Example.fresh
     = Some ((false, Some user, Some Example.invalidCredentials), s')
     ∧ user !! "mail" = Some "alice@example.com" ∧ user !! "dn" = None).
Proof.
  split.
  - destruct (Authenticate_single_match Example.directory "alice" "secret"
                Example.fresh) as (r & s' & Hrun & H).
    pose proof Hrun as Hc. vm_compute in Hc. injection Hc as Hr Hs.
    assert (events s' = events Example.fresh ++
              [EvDial "tcp" "ldap.example.com:389" (inl 1%positive);
               EvStartTLS 1%positive (tls.mkConfig true "") None;
               EvBind 1%positive Example.serviceDN "readonlypassword" None] ++
              EvSearch 1%positive
                (authRequest Example.directory Example.lc0 "alice")
                (inl (ldap.mkSearchResult [Example.alice]))
              :: [EvBind 1%positive (ldap.DN Example.alice) "secret" None;
                  EvBind 1%positive Example.serviceDN "readonlypassword" None])
      as Hev by (rewrite <- Hs; reflexivity).
    destruct (H _ _ _ _ _ _ Hev eq_refl)
      as (user & a & post' & Hpost & Hin & Hout & Hres).
    injection Hpost as <- <-. destruct Hres as (err & Hr' & _).
    rewrite Hr' in Hr. injection Hr as _ <-.
    exists user, s'. rewrite Hrun, Hr'. split; [reflexivity|]. split.
    + rewrite (Hin "mail"); [reflexivity|compute_done].
    + apply Hout. compute_done.
  - destruct (Authenticate_single_match Example.directory "alice" "wrong"
                Example.fresh) as (r & s' & Hrun & H).
    pose proof Hrun as Hc. vm_compute in Hc. injection Hc as Hr Hs.
    assert (events s' = events Example.fresh ++
              [EvDial "tcp" "ldap.example.com:389" (inl 1%positive);
               EvStartTLS 1%positive (tls.mkConfig true "") None;
               EvBind 1%positive Example.serviceDN "readonlypassword" None] ++
              EvSearch 1%positive
                (authRequest Example.directory Example.lc0 "alice")
                (inl (ldap.mkSearchResult [Example.alice]))
              :: [EvBind 1%positive (ldap.DN Example.alice) "wrong"
                    (Some Example.invalidCredentials)])
      as Hev by (rewrite <- Hs; reflexivity).
    destruct (H _ _ _ _ _ _ Hev eq_refl)
      as (user & a & post' & Hpost & Hin & Hout & Hres).
    injection Hpost as <- <-. destruct Hres as [Hr' _].
    exists user, s'. rewrite Hrun, Hr'. split; [reflexivity|]. split.
    + rewrite (Hin "mail"); [reflexivity|compute_done].
    + apply Hout. compute_done.
Defined.

(** Nobody under [uid=bob], two entries under [uid=twin]. *)
Lemma Authenticate_no_unique_match_witness :
  (∃ s', Authenticate Example.directory "bob" "secret" Example.fresh
         = Some ((false, None, Some (errors_New "User does not exist")), s')
         ∧ Authenticate Example.directory "bob" "another" Example.fresh
           = Some ((false, None, Some (errors_New "User does not exist")), s')) ∧
  (∃ m s', Authenticate Example.directory "twin" "secret" Example.fresh
           = Some ((false, m, Some (errors_New "Too many entries returned")),
                   s')).
Proof.
  split.
  - destruct (Authenticate_no_unique_match Example.directory "bob" "secret"
                Example.fresh) as (r & s' & Hrun & H).
    pose proof Hrun as Hc. vm_compute in Hc. injection Hc as _ Hs.
    assert (events s' = events Example.fresh ++
              [EvDial "tcp" "ldap.example.com:389" (inl 1%positive);
               EvStartTLS 1%positive (tls.mkConfig true "") None;
               EvBind 1%positive Example.serviceDN "readonlypassword" None] ++
              EvSearch 1%positive
                (authRequest Example.directory Example.lc0 "bob")
                (inl (ldap.mkSearchResult []))
              :: [])
      as Hev by (rewrite <- Hs; reflexivity).
    assert (length (ldap.Entries (ldap.mkSearchResult [])) ≠ 1) as Hlen
      by discriminate.
    destruct (H _ _ _ _ _ Hev Hlen)
      as ((m & err & Hr & Hzero & _) & _ & _ & Hpw).
    destruct (Hzero eq_refl) as (-> & _ & ->).
    exists s'. rewrite <- Hr. split; [exact Hrun|apply Hpw].
  - destruct (Authenticate_no_unique_match Example.directory "twin" "secret"
                Example.fresh) as (r & s' & Hrun & H).
    pose proof Hrun as Hc. vm_compute in Hc. injection Hc as _ Hs.
    assert (events s' = events Example.fresh ++
              [EvDial "tcp" "ldap.example.com:389" (inl 1%positive);
               EvStartTLS 1%positive (tls.mkConfig true "") None;
               EvBind 1%positive Example.serviceDN "readonlypassword" None] ++
              EvSearch 1%positive
                (authRequest Example.directory Example.lc0 "twin")
                (inl (ldap.mkSearchResult [Example.twin1; Example.twin2]))
              :: [])
      as Hev by (rewrite <- Hs; reflexivity).
    assert (length (ldap.Entries
                      (ldap.mkSearchResult [Example.twin1; Example.twin2])) ≠ 1)
      as Hlen by discriminate.
    destruct (H _ _ _ _ _ Hev Hlen)
      as ((m & err & Hr & _ & Hmany) & _ & _ & _).
    rewrite (Hmany (le_n 2)) in Hr.
    exists m, s'. rewrite <- Hr. exact Hrun.
Defined.

(** Alice on the directory that refuses the rebind. *)
Lemma Authenticate_rebind_failure_witness :
  ∃ user s',
    Authenticate Example.refusing "alice" "secret" Example.fresh
    = Some ((true, Some user, Some Example.busy), s')
    ∧ user !! "givenName" = Some "Alice".
Proof.
  destruct (Authenticate_rebind_failure Example.refusing "alice" "secret"
              Example.fresh) as (r & s' & Hrun & H).
  pose proof Hrun as Hc. vm_compute in Hc. injection Hc as _ Hs.
  assert (events s' = events Example.fresh ++
            [EvDial "tcp" "ldap.example.com:389" (inl 1%positive);
             EvStartTLS 1%positive (tls.mkConfig true "") None;
             EvBind 1%positive Example.serviceDN "readonlypassword" None] ++
            EvSearch 1%positive
              (authRequest Example.refusing Example.lc0 "alice")
              (inl (ldap.mkSearchResult [Example.alice]))
            :: EvBind 1%positive (ldap.DN Example.alice) "secret" None
            :: EvBind 1%positive (BindDN (client Example.fresh))
                 (BindPassword (client Example.fresh)) (Some Example.busy)
            :: [])
    as Hev by (rewrite <- Hs; reflexivity).
  assert (configured (client Example.fresh)) as Hcfg by (split; discriminate).
  destruct (H _ _ _ (ldap.mkSearchResult [Example.alice]) Example.alice _ _
              Hcfg eq_refl Hev) as (user & Hr & _ & Hin & _).
  exists user, s'. rewrite <- Hr. split; [exact Hrun|].
  rewrite (Hin "givenName"); [reflexivity|compute_done].
Defined.

(** The groups of alice, and a filter nothing matches. *)
Lemma Filter_flattens_witness :
  (∃ s', Filter Example.directory "(memberUid=alice)" ["cn"] Example.fresh
         = Some ((Some ["staff"; "wheel"; "admins"], None), s')) ∧
  (∃ s', Filter Example.directory "(uid=nobody)" ["cn"] Example.fresh
         = Some ((Some [], None), s')).
Proof.
  split.
  - destruct (Filter_flattens Example.directory "(memberUid=alice)" ["cn"]
                Example.fresh) as (r & s' & Hrun & H & _).
    pose proof Hrun as Hc. vm_compute in Hc. injection Hc as _ Hs.
    assert (events s' = events Example.fresh ++
              [EvDial "tcp" "ldap.example.com:389" (inl 1%positive);
               EvStartTLS 1%positive (tls.mkConfig true "") None] ++
              EvSearch 1%positive
                (filterRequest Example.lc0 "(memberUid=alice)" ["cn"])
                (inl (ldap.mkSearchResult [Example.staff; Example.wheel]))
              :: [])
      as Hev by (rewrite <- Hs; reflexivity).
    destruct (H _ _ _ _ _ Hev) as (_ & _ & Hr & _ & _).
    exists s'. rewrite Hrun, Hr. reflexivity.
  - destruct (Filter_flattens Example.directory "(uid=nobody)" ["cn"]
                Example.fresh) as (r & s' & Hrun & H & _).
    pose proof Hrun as Hc. vm_compute in Hc. injection Hc as _ Hs.
    assert (events s' = events Example.fresh ++
              [EvDial "tcp" "ldap.example.com:389" (inl 1%positive);
               EvStartTLS 1%positive (tls.mkConfig true "") None] ++
              EvSearch 1%positive
                (filterRequest Example.lc0 "(uid=nobody)" ["cn"])
                (inl (ldap.mkSearchResult []))
              :: [])
      as Hev by (rewrite <- Hs; reflexivity).
    destruct (H _ _ _ _ _ Hev) as (_ & _ & _ & _ & Hr).
    exists s'. rewrite Hrun, (Hr eq_refl). reflexivity.
Defined.

(** With a bind DN and no bind password, [Authenticate] and [AddUser] go
    straight to the search and to the add; with both, the bind comes
    first. *)
Lemma service_bind_iff_both_set_witness :
  (∃ r s', Authenticate Example.directory "alice" "secret" Example.fresh1
           = Some (r, s') ∧
     events s' =
       [EvDial "tcp" "ldap.example.com:389" (inl 1%positive);
        EvStartTLS 1%positive (tls.mkConfig true "") None;
        EvSearch 1%positive
          (authRequest Example.directory Example.lc1 "alice")
          (inl (ldap.mkSearchResult [Example.alice]));
        EvBind 1%positive (ldap.DN Example.alice) "secret" None]) ∧
  (∃ r s', AddUser Example.directory "newuser" "s3cret" "people" Example.fresh1
           = Some (r, s') ∧
     events s' =
       [EvDial "tcp" "ldap.example.com:389" (inl 1%positive);
        EvStartTLS 1%positive (tls.mkConfig true "") None;
        EvAdd 1%positive
          (addUserRequest Example.lc1 "newuser" "s3cret" "people") r]) ∧
  (∃ r s' a rest,
     AddUser Example.directory "newuser" "s3cret" "people" Example.fresh
     = Some (r, s') ∧
     events s' =
       [EvDial "tcp" "ldap.example.com:389" (inl 1%positive);
        EvStartTLS 1%positive (tls.mkConfig true "") None]
       ++ EvBind 1%positive Example.serviceDN "readonlypassword" a :: rest).
Proof.
  split_and!.
  - destruct (service_bind_iff_both_set Example.directory Example.fresh1)
      as (HAuth & _).
    destruct (HAuth "alice" "secret")
      as (r & s' & Hrun & evc & rest & Hev & _ & Hcases).
    exists r, s'. split; [exact Hrun|].
    pose proof Hrun as Hc. vm_compute in Hc. injection Hc as _ Hs.
    destruct Hcases as [(Hnone & _)|(c & Hconn & _ & Hskip)].
    { rewrite <- Hs in Hnone. discriminate Hnone. }
    assert (¬ configured (client Example.fresh1)) as Hn
      by (intros [_ Hpw]; by apply Hpw).
    destruct (Hskip Hn) as (a & rest' & -> & _).
    rewrite <- Hs. reflexivity.
  - destruct (service_bind_iff_both_set Example.directory Example.fresh1)
      as (_ & HAdd & _ & _).
    destruct (HAdd "newuser" "s3cret" "people")
      as (r & s' & Hrun & evc & rest & Hev & _ & Hcases).
    exists r, s'. split; [exact Hrun|].
    pose proof Hrun as Hc. vm_compute in Hc. injection Hc as Hr Hs.
    destruct Hcases as [(Hnone & _)|(c & Hconn & _ & Hskip)].
    { rewrite <- Hs in Hnone. discriminate Hnone. }
    rewrite <- Hs in Hconn. injection Hconn as <-.
    assert (¬ configured (client Example.fresh1)) as Hn
      by (intros [_ Hpw]; by apply Hpw).
    specialize (Hskip Hn). subst rest.
    rewrite <- Hs, <- Hr. reflexivity.
  - destruct (service_bind_iff_both_set Example.directory Example.fresh)
      as (_ & HAdd & _ & _).
    destruct (HAdd "newuser" "s3cret" "people")
      as (r & s' & Hrun & evc & rest & Hev & _ & Hcases).
    pose proof Hrun as Hc. vm_compute in Hc. injection Hc as Hr Hs.
    destruct Hcases as [(Hnone & _)|(c & Hconn & Hbind & _)].
    { rewrite <- Hs in Hnone. discriminate Hnone. }
    rewrite <- Hs in Hconn. injection Hconn as <-.
    assert (configured (client Example.fresh)) as Hcfg by (split; discriminate).
    destruct (Hbind Hcfg) as (a & rest' & -> & Hrest).
    destruct a as [err|].
    + destruct Hrest as [_ Hr2]. rewrite Hr2 in Hr. discriminate Hr.
    + subst rest'. exists r, s', None, [EvAdd 1%positive
        (addUserRequest Example.lc0 "newuser" "s3cret" "people") r].
      split; [exact Hrun|]. rewrite <- Hs, <- Hr. reflexivity.
Defined.

(** The groups of alice, asked by the client that has both bind
    credentials. *)
Lemma Filter_never_binds_witness :
  configured (client Example.fresh) ∧
  ∃ s' evs,
    GetGroupsOfUser Example.directory "alice" Example.fresh
    = Some ((Some ["staff"; "wheel"; "admins"], None), s')
    ∧ events s' = evs ∧ Forall (λ ev, isBind ev = false) evs.
Proof.
  split; [split; discriminate|].
  destruct (Filter_never_binds Example.directory Example.fresh) as (_ & HG).
  destruct (HG "alice") as (_ & r & s' & evs & Hrun & Hev & Hnb).
  exists s', evs. split_and!; [|exact Hev|exact Hnb].
  rewrite Hrun. pose proof Hrun as Hc. vm_compute in Hc.
  injection Hc as <- _. reflexivity.
Defined.

(** A new password for alice. *)
Lemma Change_wrappers_witness :
  ∃ r s',
    ChangePassword Example.directory "n3w" "alice" "People" Example.fresh1
    = Some (r, s') ∧
    events s' =
      [EvDial "tcp" "ldap.example.com:389" (inl 1%positive);
       EvStartTLS 1%positive (tls.mkConfig true "") None;
       EvModify 1%positive
         (replaceRequest "cn=alice,ou=People,dc=example,dc=com"
            "userPassword" ["n3w"]) r].
Proof.
  destruct (Change_wrappers Example.directory Example.fresh1)
    as (_ & HP & _ & HA).
  rewrite HP.
  destruct (HA ("cn=" +:+ "alice" +:+ ",ou=" +:+ "People" +:+ ","
                +:+ Base (client Example.fresh1)) "userPassword" ["n3w"])
    as (r & s' & pre & tail & Hrun & Hev & _ & _).
  exists r, s'. split; [exact Hrun|].
  vm_compute in Hrun. injection Hrun as <- <-. reflexivity.
Defined.

(** * Further properties of the methods *)

Section More.
Context (ext : Extern).

Lemma after_connect_impl {A} (fail : option error → A)
    (Q Q' : list Event → A → Prop) lc c rest r :
  (∀ tail r', Q tail r' → Q' tail r') →
  after_connect fail Q lc c rest r → after_connect fail Q' lc c rest r.
Proof.
  intros HQ H. destruct H; [by apply ac_bind_failed|apply ac_bound|
    apply ac_not_configured]; auto.
Qed.

(** Every run of [Authenticate]. *)
Lemma Authenticate_run username password s :
  ∃ r s' evc rest,
    Authenticate ext username password s = Some (r, s') ∧
    events s' = events s ++ evc ++ rest ∧
    Forall (λ ev, isDialing ev = true) evc ∧
    ((∃ err, r = authFail (Some err) ∧ rest = [] ∧ client s' = client s
             ∧ Conn (client s) = None)
     ∨ ∃ c, client s' = setConn (Some c) (client s) ∧
            (Conn (client s) = None ∨ (Conn (client s) = Some c ∧ evc = [])) ∧
            after_connect authFail
              (auth_tail ext (client s) c username password)
              (client s) c rest r).
Proof.
  rewrite Authenticate_guarded.
  destruct (guarded_run ext authFail (authBody ext username password)
              (λ lc c tail r, auth_tail ext lc c username password tail r))
    with (s := s) as (r & s' & evc & rest & Hrun & Hev & Hdial & Hcases).
  { intros lc c h Hc.
    destruct (authBody_run ext username password lc c h Hc)
      as (r & tail & Hrun & Htail & _).
    by exists r, tail. }
  exists r, s', evc, rest. split_and!; try done.
  destruct Hcases as [Hfail|(c & Hcl & Hheld & Hac)]; [by left|right].
  exists c. split_and!; try done.
  eapply after_connect_impl; [|exact Hac].
  intros tail r'. rewrite Hcl. apply auth_tail_setConn.
Qed.

(** X1. [Authenticate] says [true] only after the directory accepted a bind as
    the one entry the search returned, with the password supplied: the run
    then contains that search and, right after it, that successful bind;
    the map is the one collected from the entry, and the error is nil or the
    answer of the rebind that ends the run. *)
Theorem Authenticate_true_sound username password s :
  ∃ r s', Authenticate ext username password s = Some (r, s') ∧
    ∀ m err, r = (true, m, err) →
      ∃ pre c sr e post,
        events s' = events s ++ pre ++
          EvSearch c (authRequest ext (client s) username) (inl sr)
          :: EvBind c (ldap.DN e) password None :: post ∧
        ldap.Entries sr = [e] ∧
        m = Some (collectAttributes e (Attributes (client s))) ∧
        ((¬ configured (client s) ∧ post = [] ∧ err = None)
         ∨ (configured (client s) ∧
            post = [EvBind c (BindDN (client s)) (BindPassword (client s))
                      err])).
Proof.
  destruct (Authenticate_run username password s)
    as (r & s' & evc & rest & Hrun & Hev & Hdial & Hcases).
  exists r, s'. split; [done|]. intros m err ->.
  destruct Hcases as [(e & [=] & _)|(c & _ & _ & Hac)].
  inversion Hac as [e Hcfg | tail r' Hcfg Htail | tail r' Hcfg Htail]; subst.
  - inversion Htail; subst.
    + eexists (evc ++ [_]), c, _, _, _. rewrite Hev, <- !app_assoc.
      split_and!; [done..|]. by right.
    + done.
  - inversion Htail; subst.
    + done.
    + eexists evc, c, _, _, _. rewrite Hev.
      split_and!; [done..|]. by left.
Qed.

(** X2. [Authenticate] never says [false] without an error.  With [false], a
    map that is not nil means that the search returned one entry and the
    bind as that entry was refused: that bind ends the run and its error is
    the one returned. *)
Theorem Authenticate_false_has_error username password s :
  ∃ r s', Authenticate ext username password s = Some (r, s') ∧
    ∀ m err, r = (false, m, err) →
      err ≠ None ∧
      ∀ user, m = Some user →
        ∃ pre c sr e berr,
          events s' = events s ++ pre ++
            [EvSearch c (authRequest ext (client s) username) (inl sr);
             EvBind c (ldap.DN e) password (Some berr)] ∧
          ldap.Entries sr = [e] ∧ err = Some berr ∧
          user = collectAttributes e (Attributes (client s)).
Proof.
  destruct (Authenticate_run username password s)
    as (r & s' & evc & rest & Hrun & Hev & Hdial & Hcases).
  exists r, s'. split; [done|]. intros m err ->.
  destruct Hcases as [(e & Heq & _)|(c & _ & _ & Hac)].
  { injection Heq as -> ->. split; [done|]. by intros user [=]. }
  inversion Hac as [e Hcfg | tail r' Hcfg Htail | tail r' Hcfg Htail]; subst.
  - split; [done|]. by intros user [=].
  - inversion Htail; subst; (split; [done|]); intros user [=]; subst.
    eexists (evc ++ [_]), c, _, _, _. rewrite Hev, <- !app_assoc. done.
  - inversion Htail; subst; (split; [done|]); intros user [=]; subst.
    eexists evc, c, _, _, _. rewrite Hev. done.
Qed.

Lemma auth_tail_has_search lc c username password tail r :
  auth_tail ext lc c username password tail r →
  ¬ Forall (λ ev, isSearch ev = false) tail.
Proof.
  intros H HF. destruct (auth_tail_shape ext _ _ _ _ _ _ H) as (a & tl & -> & _).
  by apply Forall_cons in HF as [? _].
Qed.

(** X3. A run of [Authenticate] that does not get an answer to its search
    returns [false], the nil map and the error that stopped it.  When the
    search fails, its error is returned and nothing follows it.  When no
    search was made, the connection or the bind with the configured
    credentials failed, and no other request was made: the user name and
    the password were not sent. *)
Theorem Authenticate_early_failure username password s :
  ∃ r s', Authenticate ext username password s = Some (r, s') ∧
    (∀ pre c req err post,
       events s' = events s ++ pre ++ EvSearch c req (inr err) :: post →
       r = (false, None, Some err) ∧ post = []) ∧
    (∀ evs, events s' = events s ++ evs →
       Forall (λ ev, isSearch ev = false) evs →
       ∃ err, r = (false, None, Some err) ∧
         (Forall (λ ev, isDialing ev = true) evs
          ∨ ∃ evc c,
              configured (client s) ∧
              Forall (λ ev, isDialing ev = true) evc ∧
              evs = evc ++ [EvBind c (BindDN (client s))
                              (BindPassword (client s)) (Some err)])).
Proof.
  destruct (Authenticate_run username password s)
    as (r & s' & evc & rest & Hrun & Hev & Hdial & Hcases).
  exists r, s'. split; [done|]. split.
  - intros pre c req err post Hev'.
    destruct (Authenticate_search_event ext _ _ _ _ _ _ _ _ _ _ Hrun Hev')
      as (_ & _ & Htail & _ & _).
    by inversion Htail.
  - intros evs Hev' Hns. rewrite Hev in Hev'. apply app_inv_head in Hev'.
    subst evs. apply Forall_app in Hns as [_ Hns].
    destruct Hcases as [(err & -> & -> & _)|(c & _ & _ & Hac)].
    { exists err. split; [done|]. left. by rewrite app_nil_r. }
    destruct Hac as [err Hcfg | tail r Hcfg Htail | tail r Hcfg Htail].
    + exists err. split; [done|]. right. by exists evc, c.
    + apply Forall_cons in Hns as [_ Hns].
      by destruct (auth_tail_has_search _ _ _ _ _ _ Htail).
    + by destruct (auth_tail_has_search _ _ _ _ _ _ Htail).
Qed.

Lemma filter_dialing (P : Event → Prop) `{∀ ev, Decision (P ev)} evs :
  Forall (λ ev, isDialing ev = true) evs →
  (∀ ev, isDialing ev = true → ¬ P ev) →
  filter P evs = [].
Proof.
  intros Hd HP. induction Hd as [|ev evs Hev _ IH]; [done|].
  rewrite filter_cons_False; [done|by apply HP].
Qed.

(** X4. [Authenticate] only dials, binds and searches: it makes at most one
    search and at most three binds, and neither adds, modifies nor
    closes. *)
Theorem Authenticate_read_only username password s :
  ∃ r s' evs, Authenticate ext username password s = Some (r, s') ∧
    events s' = events s ++ evs ∧
    Forall (λ ev, isDialing ev || isBind ev || isSearch ev = true) evs ∧
    length (filter (λ ev, isSearch ev = true) evs) ≤ 1 ∧
    length (filter (λ ev, isBind ev = true) evs) ≤ 3.
Proof.
  destruct (Authenticate_run username password s)
    as (r & s' & evc & rest & Hrun & Hev & Hdial & Hcases).
  exists r, s', (evc ++ rest). split_and!; try done.
  - apply Forall_app. split.
    { eapply Forall_impl; [exact Hdial|]. by intros ev ->. }
    destruct Hcases as [(err & _ & -> & _)|(c & _ & _ & Hac)]; [done|].
    destruct Hac as [err Hcfg | tail r' Hcfg Htail | tail r' Hcfg Htail];
      try destruct Htail; by repeat constructor.
  - rewrite filter_app, length_app, (filter_dialing _ evc Hdial);
      [|by intros [] ?].
    destruct Hcases as [(err & _ & -> & _)|(c & _ & _ & Hac)]; [simpl; lia|].
    destruct Hac as [err Hcfg | tail r' Hcfg Htail | tail r' Hcfg Htail];
      try destruct Htail; simpl; lia.
  - rewrite filter_app, length_app, (filter_dialing _ evc Hdial);
      [|by intros [] ?].
    destruct Hcases as [(err & _ & -> & _)|(c & _ & _ & Hac)]; [simpl; lia|].
    destruct Hac as [err Hcfg | tail r' Hcfg Htail | tail r' Hcfg Htail];
      try destruct Htail; simpl; lia.
Qed.

(** The opening and a rest whose requests all satisfy [P c] on the
    connection [c]; a bind on [c] is taken to satisfy it. *)
Lemma guarded_events {A} (fail : option error → A) (k : LDAPClient → M A)
    (P : ldap.Conn → Event → Prop) :
  (∀ c dn pw a, P c (EvBind c dn pw a)) →
  (∀ lc c h, Conn lc = Some c →
     ∃ r tail, k lc (mkState lc h) = Some (r, mkState lc (h ++ tail))
               ∧ Forall (P c) tail) →
  ∀ s, ∃ r s' evc rest,
    guarded ext fail k s = Some (r, s') ∧
    events s' = events s ++ evc ++ rest ∧
    Forall (λ ev, isDialing ev = true) evc ∧
    ((client s' = client s ∧ Conn (client s) = None ∧ rest = [])
     ∨ ∃ c, client s' = setConn (Some c) (client s) ∧
            (Conn (client s) = None ∨ (Conn (client s) = Some c ∧ evc = [])) ∧
            Forall (P c) rest).
Proof.
  intros HP Hk s.
  destruct (guarded_run ext fail k (λ _ c tail _, Forall (P c) tail))
    with (s := s) as (r & s' & evc & rest & Hrun & Hev & Hdial & Hcases).
  { intros lc c h Hc. destruct (Hk lc c h Hc) as (r & tail & ? & ?).
    by exists r, tail. }
  exists r, s', evc, rest. split_and!; try done.
  destruct Hcases as [(err & _ & -> & Hcl & Hnone)|(c & Hcl & Hheld & Hac)];
    [by left|right].
  exists c. split_and!; try done.
  destruct Hac as [err Hcfg | tail r0 Hcfg Htail | tail r0 Hcfg Htail].
  - apply Forall_cons. split; [apply HP|constructor].
  - apply Forall_cons. split; [apply HP|done].
  - done.
Qed.

Lemma onConn_refl_bind c dn pw a :
  onConn c (EvBind c dn pw a) = true ∧ isClose (EvBind c dn pw a) = false.
Proof. split; [by apply bool_decide_eq_true|done]. Qed.

Lemma Authenticate_operation username password s :
  operation_run (Authenticate ext username password) s.
Proof.
  rewrite Authenticate_guarded.
  apply (guarded_events authFail _
           (λ c ev, onConn c ev = true ∧ isClose ev = false)).
  - apply onConn_refl_bind.
  - intros lc c h Hc.
    destruct (authBody_run ext username password lc c h Hc)
      as (r & tail & Hrun & Htail & _).
    exists r, tail. split; [done|].
    destruct Htail; repeat constructor; by apply bool_decide_eq_true.
Qed.

Lemma AddUser_operation username password ou s :
  operation_run (AddUser ext username password ou) s.
Proof.
  unfold operation_run. rewrite AddUser_guarded.
  apply (guarded_events (λ err, err) _
           (λ c ev, onConn c ev = true ∧ isClose ev = false)).
  - apply onConn_refl_bind.
  - intros lc c h Hc.
    destruct (Conn_Add_run ext (addUserRequest lc username password ou)
                lc c h Hc) as (r & tail & Hrun & ->).
    exists r, [EvAdd c (addUserRequest lc username password ou) r].
    split; [done|]. repeat constructor. by apply bool_decide_eq_true.
Qed.

Lemma AddUserAccount_operation account s :
  operation_run (AddUserAccount ext account) s.
Proof.
  unfold operation_run. rewrite AddUserAccount_guarded.
  apply (guarded_events (λ err, err) _
           (λ c ev, onConn c ev = true ∧ isClose ev = false)).
  - apply onConn_refl_bind.
  - intros lc c h Hc.
    destruct (Conn_Add_run ext (addUserAccountRequest lc account) lc c h Hc)
      as (r & tail & Hrun & ->).
    exists r, [EvAdd c (addUserAccountRequest lc account) r].
    split; [done|]. repeat constructor. by apply bool_decide_eq_true.
Qed.

Lemma ChangeAttribute_operation DN attribute values s :
  operation_run (ChangeAttribute ext DN attribute values) s.
Proof.
  rewrite ChangeAttribute_guarded.
  apply (guarded_events (λ err, err) _
           (λ c ev, onConn c ev = true ∧ isClose ev = false)).
  - apply onConn_refl_bind.
  - intros lc c h Hc.
    destruct (Conn_Modify_run ext (replaceRequest DN attribute values)
                lc c h Hc) as (r & tail & Hrun & ->).
    exists r, [EvModify c (replaceRequest DN attribute values) r].
    split; [done|]. repeat constructor. by apply bool_decide_eq_true.
Qed.

Lemma Filter_operation filter attributes s :
  operation_run (Filter ext filter attributes) s.
Proof.
  unfold operation_run, Filter.
  destruct (Connect_run ext s) as (r1 & s1 & evc & Hrun & Hev & Hdial & Hr1).
  unfold bind at 1. rewrite Hrun.
  destruct r1 as [err|].
  { destruct Hr1 as [-> Hnone]. eexists _, _, evc, []. split; [done|].
    simpl. rewrite app_nil_r. split_and!; try done. by left. }
  destruct Hr1 as (c & Hcl & Hheld).
  assert (Hc : Conn (client s1) = Some c) by (by rewrite Hcl).
  assert (Conn (client s) = None ∨ Conn (client s) = Some c ∧ evc = [])
    as Hheld'.
  { destruct Hheld as [|[<- ->]]; [by left|by right]. }
  destruct s1 as [lc1 h1]. simpl in *. subst h1.
  run. rewrite Hc. simpl.
  destruct (Search ext _ c _) as [sr|err] eqn:Hs; simpl;
    eexists _, _, evc, [_]; rewrite <- app_assoc;
    (split_and!; [done..|]); right; exists c; (split_and!; [done..|]);
    repeat constructor; by apply bool_decide_eq_true.
Qed.

Lemma operation_run_keeps {A} (m : M A) s :
  operation_run m s → kept m s.
Proof.
  intros (r & s' & evc & rest & Hrun & Hev & Hdial & Hcases).
  exists r, s', (evc ++ rest). split_and!; try done.
  - destruct Hcases as [(Hcl & Hnone & _)|(c & Hcl & Hheld & _)].
    + split.
      * rewrite Hcl, Hnone. symmetry. by apply setConn_same.
      * intros c Hc. congruence.
    + split.
      * by rewrite Hcl.
      * intros c' Hc'. rewrite Hcl. simpl.
        destruct Hheld as [?|[? _]]; congruence.
  - apply Forall_app. split.
    + eapply Forall_impl; [exact Hdial|]. by intros [].
    + destruct Hcases as [(_ & _ & ->)|(c & _ & _ & HF)]; [done|].
      eapply Forall_impl; [exact HF|]. by intros ev [_ ?].
Qed.

Lemma operation_run_reuses {A} (m : M A) s c :
  Conn (client s) = Some c →
  operation_run m s → reused c m s.
Proof.
  intros Hc (r & s' & evc & rest & Hrun & Hev & Hdial & Hcases).
  destruct Hcases as [(_ & Hnone & _)|(c' & Hcl & Hheld & HF)]; [congruence|].
  destruct Hheld as [?|[Hc' ->]]; [congruence|].
  assert (c' = c) as -> by congruence.
  exists r, s', rest. split_and!; try done.
  - by rewrite Hcl.
  - eapply Forall_impl; [exact HF|]. by intros ev [? _].
Qed.

(** X5. [Authenticate], [Filter], [AddUser], [AddUserAccount] and
    [ChangeAttribute] change nothing of the client but [lc.Conn], keep a
    connection that is held, whether they succeed or fail, and never close
    one. *)
Theorem operations_keep_client s :
  (∀ username password, kept (Authenticate ext username password) s) ∧
  (∀ filter attributes, kept (Filter ext filter attributes) s) ∧
  (∀ username password ou, kept (AddUser ext username password ou) s) ∧
  (∀ account, kept (AddUserAccount ext account) s) ∧
  (∀ DN attribute values, kept (ChangeAttribute ext DN attribute values) s).
Proof.
  split_and!; intros; apply operation_run_keeps.
  - apply Authenticate_operation.
  - apply Filter_operation.
  - apply AddUser_operation.
  - apply AddUserAccount_operation.
  - apply ChangeAttribute_operation.
Qed.

(** X6. On a client that holds the connection [c], the five operations do not
    dial: every request they make is made on [c], and [c] is still held
    afterwards. *)
Theorem held_connection_reused s c :
  Conn (client s) = Some c →
  (∀ username password, reused c (Authenticate ext username password) s) ∧
  (∀ filter attributes, reused c (Filter ext filter attributes) s) ∧
  (∀ username password ou, reused c (AddUser ext username password ou) s) ∧
  (∀ account, reused c (AddUserAccount ext account) s) ∧
  (∀ DN attribute values,
     reused c (ChangeAttribute ext DN attribute values) s).
Proof.
  intros Hc. split_and!; intros; apply operation_run_reuses; try done.
  - apply Authenticate_operation.
  - apply Filter_operation.
  - apply AddUser_operation.
  - apply AddUserAccount_operation.
  - apply ChangeAttribute_operation.
Qed.

(** The first request of [Connect] on a client without connection. *)
Lemma Connect_dial_first s :
  Conn (client s) = None →
  ∃ r s' d evs x,
    Connect ext s = Some (r, s') ∧ events s' = events s ++ d :: evs ∧
    (d = EvDial "tcp" (address (client s)) x
     ∨ ∃ config, d = EvDialTLS "tcp" (address (client s)) config x) ∧
    match r with
    | None => ∃ l, x = inl l ∧ client s' = setConn (Some l) (client s)
    | Some _ => client s' = client s
    end.
Proof.
  destruct s as [lc h]. simpl. intros Hc.
  unfold Connect, dialStartTLS, dialTLS. run. rewrite Hc.
  rewrite !Sprintf_host_port. fold (address lc).
  destruct (UseSSL lc); simpl.
  - destruct (DialTLS _ _ _ _ _) as [l|err]; simpl;
      eexists _, _, _, [], _; (split_and!; [done| |right; by eexists|]);
      try done; by eexists.
  - destruct (Dial _ _ _ _) as [l|err] eqn:Hd; simpl.
    2:{ eexists _, _, _, [], _. split_and!; [done| |by left|]; done. }
    destruct (SkipTLS lc); simpl.
    + eexists _, _, _, [], _. split_and!; [done| |by left|]; [done|].
      by eexists.
    + destruct (StartTLS _ _ _ _) as [err|]; simpl.
      * eexists _, _, _, [_], _. rewrite <- app_assoc.
        split_and!; [done| |by left|]; done.
      * eexists _, _, _, [_], _. rewrite <- app_assoc.
        split_and!; [done| |by left|]; [done|]. by eexists.
Qed.

(** X7. On a client that holds no connection [Connect] dials first, the
    address [Host:Port] over tcp, in plaintext or with TLS.  When it returns
    nil the client holds the connection that this dial returned; when it
    returns an error the client is as it was, with no connection. *)
Theorem Connect_holds_dialed s :
  Conn (client s) = None →
  ∃ r s' d evs x,
    Connect ext s = Some (r, s') ∧ events s' = events s ++ d :: evs ∧
    (d = EvDial "tcp" (address (client s)) x
     ∨ ∃ config, d = EvDialTLS "tcp" (address (client s)) config x) ∧
    match r with
    | None => ∃ l, x = inl l ∧ client s' = setConn (Some l) (client s)
    | Some _ => client s' = client s
    end.
Proof. apply Connect_dial_first. Qed.

Lemma Close_held s c :
  Conn (client s) = Some c →
  Close s = Some (tt, mkState (setConn None (client s))
                              (events s ++ [EvClose c])).
Proof. intros Hc. unfold Close. run. by rewrite Hc. Qed.

(** X8. [Connect] closes nothing.  When the plaintext dial succeeded and the
    upgrade was refused, [Connect] returns the error of the upgrade, and the
    connection that was dialed is not held by the client, and [Connect] has
    not closed it. *)
Theorem Connect_failed_upgrade_drops s :
  ∃ r s' evs, Connect ext s = Some (r, s') ∧ events s' = events s ++ evs ∧
    Forall (λ ev, isClose ev = false) evs ∧
    ∀ l config err, EvStartTLS l config (Some err) ∈ evs →
      r = Some err ∧ Conn (client s') = None ∧
      evs = [EvDial "tcp" (address (client s)) (inl l);
             EvStartTLS l config (Some err)].
Proof.
  destruct s as [lc h]. unfold Connect, dialStartTLS, dialTLS. run.
  rewrite !Sprintf_host_port. fold (address lc).
  destruct (Conn lc) as [c|] eqn:Hc.
  { exists None, (mkState lc h), []. rewrite app_nil_r.
    split_and!; [done..|]. intros l config err Hin.
    by apply elem_of_nil in Hin. }
  destruct (UseSSL lc); simpl.
  - destruct (DialTLS _ _ _ _ _) as [l|err]; simpl;
      eexists _, _, [_]; (split_and!; [done|done|by repeat constructor|]);
      intros l' config e Hin; by apply list_elem_of_singleton in Hin.
  - destruct (Dial _ _ _ _) as [l|err]; simpl.
    2:{ eexists _, _, [_]. split_and!; [done|done|by repeat constructor|].
        intros l' config e Hin. by apply list_elem_of_singleton in Hin. }
    destruct (SkipTLS lc); simpl.
    + eexists _, _, [_]. split_and!; [done|done|by repeat constructor|].
      intros l' config e Hin. by apply list_elem_of_singleton in Hin.
    + destruct (StartTLS _ _ _ _) as [err|]; simpl;
        eexists _, _, [_; _]; rewrite <- app_assoc;
        (split_and!; [done|done|by repeat constructor|]);
        intros l' config e Hin;
        (apply elem_of_cons in Hin as [?|Hin]; [done|]);
        apply list_elem_of_singleton in Hin; by simplify_eq.
Qed.

(** X9. After [Close] the next [Connect] dials anew: from a client holding
    [c], [Close] then [Connect] close [c] and dial, and the client ends up
    with the connection that this dial returned, or with none when
    [Connect] fails. *)
Theorem Close_then_Connect_redials s c :
  Conn (client s) = Some c →
  ∃ r s' d evs x,
    (Close ;;; Connect ext) s = Some (r, s') ∧
    events s' = events s ++ EvClose c :: d :: evs ∧
    (d = EvDial "tcp" (address (client s)) x
     ∨ ∃ config, d = EvDialTLS "tcp" (address (client s)) config x) ∧
    match r with
    | None => ∃ l, x = inl l ∧ Conn (client s') = Some l
    | Some _ => Conn (client s') = None
    end.
Proof.
  intros Hc. pose proof (Close_held s c Hc) as Hclose.
  destruct (Connect_dial_first
              (mkState (setConn None (client s)) (events s ++ [EvClose c]))
              eq_refl)
    as (r & s' & d & evs & x & Hrun & Hev & Hd & Hr).
  exists r, s', d, evs, x. split_and!.
  - unfold bind. by rewrite Hclose.
  - rewrite Hev. simpl. by rewrite <- app_assoc.
  - done.
  - destruct r as [err|].
    + by rewrite Hr.
    + destruct Hr as (l & -> & ->). by exists l.
Qed.

(** [Filter] on a client that holds [c]: one request, the search. *)
Lemma Filter_held filter attributes s c :
  Conn (client s) = Some c →
  ∃ r a,
    Filter ext filter attributes s
    = Some (r, mkState (client s)
                 (events s ++
                    [EvSearch c (filterRequest (client s) filter attributes)
                       a])).
Proof.
  intros Hc. destruct s as [lc h]. simpl in *.
  unfold Filter, Connect. run. rewrite Hc. simpl. rewrite Hc. simpl.
  fold (filterRequest lc filter attributes).
  destruct (Search ext h c _) as [sr|err]; simpl; by eexists _, _.
Qed.

(** X10. After a login that the directory refused at the bind as the matched
    entry, the connection is still held and the refused bind is the last
    request made on it: a [Filter] that follows makes its search next, with
    no bind in between. *)
Theorem Filter_after_refused_login username password s user err s1 :
  Authenticate ext username password s = Some ((false, Some user, err), s1) →
  ∃ c dn berr h,
    events s1 = h ++ [EvBind c dn password (Some berr)] ∧
    Conn (client s1) = Some c ∧
    ∀ filter attributes, ∃ r a,
      Filter ext filter attributes s1
      = Some (r, mkState (client s1)
                   (events s1 ++
                      [EvSearch c (filterRequest (client s) filter attributes)
                         a])).
Proof.
  intros Hrun.
  destruct (Authenticate_run username password s)
    as (r & s' & evc & rest & Hrun' & Hev & Hdial & Hcases).
  rewrite Hrun in Hrun'. injection Hrun' as <- <-.
  destruct Hcases as [(e & [=] & _)|(c & Hcl & _ & Hac)].
  assert (Hc : Conn (client s1) = Some c) by (by rewrite Hcl).
  assert (∃ sr e berr, rest = [EvSearch c (authRequest ext (client s) username)
                                 (inl sr);
                               EvBind c (ldap.DN e) password (Some berr)]
          ∨ rest = [EvBind c (BindDN (client s)) (BindPassword (client s)) None;
                    EvSearch c (authRequest ext (client s) username) (inl sr);
                    EvBind c (ldap.DN e) password (Some berr)])
    as (sr & e & berr & Hrest).
  { inversion Hac as [e Hcfg | tail r' Hcfg Htail | tail r' Hcfg Htail]; subst;
      inversion Htail; subst; eexists _, _, _;
      first [by left|by right]. }
  exists c, (ldap.DN e), berr.
  exists (events s ++ evc ++ removelast rest). split_and!; [|done|].
  - rewrite Hev. destruct Hrest as [->| ->]; simpl;
      by rewrite <- !app_assoc.
  - intros filter attributes.
    destruct (Filter_held filter attributes s1 c Hc) as (r & a & HF).
    exists r, a. rewrite HF. by rewrite Hcl.
Qed.

Lemma Filter_search_event filter attributes s r s' pre c req a post :
  Filter ext filter attributes s = Some (r, s') →
  events s' = events s ++ pre ++ EvSearch c req a :: post →
  req = filterRequest (client s) filter attributes ∧ post = [] ∧
  Forall (λ ev, isDialing ev = true) pre ∧
  r = match a with
      | inl sr => (Some (flattenLoop (ldap.Entries sr)), None)
      | inr err => (None, Some err)
      end.
Proof.
  intros Hrun Hev.
  destruct (Filter_run ext filter attributes s)
    as (r' & s'' & evc & rest & Hrun' & Hev' & Hdial & Hcases).
  rewrite Hrun in Hrun'. injection Hrun' as <- <-.
  pose proof (dialing_not_search _ Hdial) as Hns.
  rewrite Hev' in Hev. apply app_inv_head in Hev.
  destruct Hcases as [(err & -> & ->)|(c1 & a1 & -> & ->)].
  { rewrite app_nil_r in Hev.
    by pose proof (no_search_in _ _ _ _ Hev Hns). }
  apply unique_search in Hev as (-> & Hx & ->); [|done|constructor|done].
  by injection Hx as -> -> <-.
Qed.

(** X11. When [Filter] fails it returns the nil slice with the error, and
    otherwise a slice that is not nil.  The error is that of the search,
    which is then the last request, or, when no search was made, that of
    [Connect], which made the only requests. *)
Theorem Filter_failure filter attributes s :
  ∃ r s', Filter ext filter attributes s = Some (r, s') ∧
    (r.1 = None ↔ r.2 ≠ None) ∧
    (∀ pre c req err post,
       events s' = events s ++ pre ++ EvSearch c req (inr err) :: post →
       r = (None, Some err) ∧ post = []) ∧
    (∀ evs, events s' = events s ++ evs →
       Forall (λ ev, isSearch ev = false) evs →
       ∃ err, r = (None, Some err) ∧
              Forall (λ ev, isDialing ev = true) evs).
Proof.
  destruct (Filter_run ext filter attributes s)
    as (r & s' & evc & rest & Hrun & Hev & Hdial & Hcases).
  exists r, s'. split_and!; [done| | |].
  - destruct Hcases as [(err & -> & _)|(c & [sr|err] & _ & ->)]; simpl;
      split; done.
  - intros pre c req err post Hev'.
    by destruct (Filter_search_event _ _ _ _ _ _ _ _ _ _ Hrun Hev')
      as (_ & -> & _ & ->).
  - intros evs Hev' Hns. rewrite Hev in Hev'. apply app_inv_head in Hev'.
    subst evs. apply Forall_app in Hns as [_ Hns].
    destruct Hcases as [(err & -> & ->)|(c & a & -> & _)].
    2:{ by apply Forall_cons in Hns as [? _]. }
    exists err. by rewrite app_nil_r.
Qed.

Lemma concat_values_nil (attrs : list ldap.EntryAttribute) :
  concat (map ldap.Values attrs) = [] ↔
  ∀ a, a ∈ attrs → ldap.Values a = [].
Proof.
  induction attrs as [|b attrs IH]; simpl.
  { split; [|done]. intros _ a H. by apply elem_of_nil in H. }
  destruct IH as [IH1 IH2]. split.
  - intros [Hb Hl]%app_eq_nil a [->|Ha]%elem_of_cons; [done|].
    by apply IH1.
  - intros H. rewrite (H b) by (apply elem_of_cons; by left). simpl.
    apply IH2. intros a Ha. apply H, elem_of_cons. by right.
Qed.

Lemma flattened_nil entries :
  flattened entries = [] ↔
  ∀ e a, e ∈ entries → a ∈ ldap.Attributes e → ldap.Values a = [].
Proof.
  unfold flattened. induction entries as [|e entries IH]; simpl.
  { split; [|done]. intros _ e a H. by apply elem_of_nil in H. }
  destruct IH as [IH1 IH2]. split.
  - intros [He Hes]%app_eq_nil e' a [->|Hin]%elem_of_cons Ha.
    + by apply (concat_values_nil (ldap.Attributes e)).
    + by apply (IH1 Hes e').
  - intros H.
    assert (concat (map ldap.Values (ldap.Attributes e)) = []) as ->.
    { apply concat_values_nil. intros a. apply H, elem_of_cons. by left. }
    simpl. apply IH2. intros e' a He'. apply H, elem_of_cons. by right.
Qed.

(** X12. A successful [Filter] returns the empty slice exactly when no
    attribute of any entry of the answer has a value: an empty result does not
    tell entries without values from no entry at all. *)
Theorem Filter_empty_iff_no_values filter attributes s :
  ∃ r s', Filter ext filter attributes s = Some (r, s') ∧
    ∀ pre c req sr post,
      events s' = events s ++ pre ++ EvSearch c req (inl sr) :: post →
      (r = (Some [], None) ↔
       ∀ e a, e ∈ ldap.Entries sr → a ∈ ldap.Attributes e →
              ldap.Values a = []).
Proof.
  destruct (Filter_run ext filter attributes s)
    as (r & s' & evc & rest & Hrun & Hev & Hdial & Hcases).
  exists r, s'. split; [done|]. intros pre c req sr post Hev'.
  destruct (Filter_search_event _ _ _ _ _ _ _ _ _ _ Hrun Hev')
    as (_ & _ & _ & ->).
  rewrite flattenLoop_flattened, <- flattened_nil. split.
  - by intros [= ->].
  - by intros ->.
Qed.

(** On a client that holds [c] and has no configured credentials the
    opening does nothing: the operation starts with its own request. *)
Lemma guarded_held_unconfigured {A} (fail : option error → A)
    (k : LDAPClient → M A) s c :
  Conn (client s) = Some c → ¬ configured (client s) →
  guarded ext fail k s = k (client s) s.
Proof.
  intros Hc Hcfg. destruct s as [lc h]. simpl in *.
  unfold guarded, Connect. run. rewrite Hc. simpl.
  destruct (bindConfigured_run ext lc lc c h Hc eq_refl eq_refl)
    as [[? _]|[_ ->]]; done.
Qed.

(** X17. Without configured credentials a login that succeeded leaves
    the connection bound as the user: that bind is the last request made on
    it, and an [AddUser], [AddUserAccount] or [ChangeAttribute] that follows
    sends its add or modify next on that connection, with no bind before
    it, and returns the answer. *)
Theorem unconfigured_writes_follow_user_bind username password s m err s1 :
  ¬ configured (client s) →
  Authenticate ext username password s = Some ((true, m, err), s1) →
  ∃ c dn h,
    events s1 = h ++ [EvBind c dn password None] ∧
    Conn (client s1) = Some c ∧
    (∀ name pw ou, ∃ r,
       AddUser ext name pw ou s1
       = Some (r, mkState (client s1)
                    (events s1 ++
                       [EvAdd c (addUserRequest (client s) name pw ou) r]))) ∧
    (∀ account, ∃ r,
       AddUserAccount ext account s1
       = Some (r, mkState (client s1)
                    (events s1 ++
                       [EvAdd c (addUserAccountRequest (client s) account)
                          r]))) ∧
    (∀ DN attribute values, ∃ r,
       ChangeAttribute ext DN attribute values s1
       = Some (r, mkState (client s1)
                    (events s1 ++
                       [EvModify c (replaceRequest DN attribute values) r]))).
Proof.
  intros Hcfg Hrun.
  destruct (Authenticate_run username password s)
    as (r & s' & evc & rest & Hrun' & Hev & Hdial & Hcases).
  rewrite Hrun in Hrun'. injection Hrun' as <- <-.
  destruct Hcases as [(e & [=] & _)|(c & Hcl & _ & Hac)].
  assert (Hc : Conn (client s1) = Some c) by (by rewrite Hcl).
  assert (Hcfg1 : ¬ configured (client s1))
    by (by rewrite Hcl, configured_setConn).
  assert (∃ sr e, rest = [EvSearch c (authRequest ext (client s) username)
                            (inl sr);
                          EvBind c (ldap.DN e) password None])
    as (sr & e & ->).
  { inversion Hac as [e Hc' | tail r' Hc' Htail | tail r' Hc' Htail]; subst;
      [done..|]. inversion Htail; subst; [done|]. by eexists _, _. }
  exists c, (ldap.DN e),
    (events s ++ evc ++ [EvSearch c (authRequest ext (client s) username)
                           (inl sr)]).
  split_and!; [|done| | |].
  - rewrite Hev. by rewrite <- !app_assoc.
  - intros name pw ou.
    rewrite AddUser_guarded, (guarded_held_unconfigured _ _ s1 c Hc Hcfg1).
    destruct s1 as [lc1 h1]. simpl in *.
    destruct (Conn_Add_run ext (addUserRequest lc1 name pw ou) lc1 c h1 Hc)
      as (r & tail & -> & ->).
    exists r. by rewrite Hcl.
  - intros account.
    rewrite AddUserAccount_guarded,
      (guarded_held_unconfigured _ _ s1 c Hc Hcfg1).
    destruct s1 as [lc1 h1]. simpl in *.
    destruct (Conn_Add_run ext (addUserAccountRequest lc1 account) lc1 c h1 Hc)
      as (r & tail & -> & ->).
    exists r. by rewrite Hcl.
  - intros DN attribute values.
    rewrite ChangeAttribute_guarded,
      (guarded_held_unconfigured _ _ s1 c Hc Hcfg1).
    destruct s1 as [lc1 h1]. simpl in *.
    destruct (Conn_Modify_run ext (replaceRequest DN attribute values)
                lc1 c h1 Hc) as (r & tail & -> & ->).
    by exists r.
Qed.

End More.

(** ** Formats and distinguished names *)

Lemma append_cons c (a b : string) : String c a +:+ b = String c (a +:+ b).
Proof. reflexivity. Qed.

Lemma append_assoc_s (a b c : string) : (a +:+ b) +:+ c = a +:+ (b +:+ c).
Proof.
  induction a as [|x a IH]; [done|]. by rewrite !append_cons, IH.
Qed.

(** [fmt]'s loop copies a prefix without [%] as it is. *)
Lemma doPrintf_plain_prefix other pre rest a n :
  noPercent pre = true →
  doPrintf other (pre +:+ rest) a n = pre +:+ doPrintf other rest a n.
Proof.
  induction pre as [|c pre IH]; [done|]. simpl.
  intros [Hc Hpre]%andb_true_iff. rewrite !append_cons. simpl.
  apply negb_true_iff in Hc. rewrite Hc. by rewrite IH.
Qed.

Lemma doPrintf_plain other t a n :
  noPercent t = true → doPrintf other t a n = t +:+ extra a n.
Proof.
  intros Ht. rewrite <- (append_empty_r t) at 1.
  by rewrite doPrintf_plain_prefix.
Qed.

(** A format with the one directive [%s] and one string operand. *)
Lemma Sprintf_one_s other pre suf u :
  noPercent pre = true → noPercent suf = true →
  Sprintf other (pre +:+ "%s" +:+ suf) [str u] = pre +:+ u +:+ suf.
Proof.
  intros Hpre Hsuf. unfold Sprintf.
  rewrite doPrintf_plain_prefix by done. f_equal.
  change ("%s" +:+ suf) with (String "%" (String "s" suf)).
  cbn. rewrite doPrintf_plain by done. cbn. by rewrite append_empty_r.
Qed.

(** A format without directive: the operand comes out as [EXTRA]. *)
Lemma Sprintf_no_directive other t u :
  noPercent t = true →
  Sprintf other t [str u] = t +:+ "%!(EXTRA string=" +:+ u +:+ ")".
Proof.
  intros Ht. unfold Sprintf. rewrite doPrintf_plain by done. reflexivity.
Qed.

Section Formats.
Context (ext : Extern).

(** The search requests of [Authenticate] and [GetGroupsOfUser]. *)
Lemma search_requests username s :
  (∀ password r s' pre c req a post,
     Authenticate ext username password s = Some (r, s') →
     events s' = events s ++ pre ++ EvSearch c req a :: post →
     ldap.Filter req
     = Sprintf (fmt_other ext) (UserFilter (client s)) [str username]) ∧
  (∀ r s' pre c req a post,
     GetGroupsOfUser ext username s = Some (r, s') →
     events s' = events s ++ pre ++ EvSearch c req a :: post →
     ldap.Filter req
     = Sprintf (fmt_other ext) (GroupFilter (client s)) [str username]
     ∧ ldap.SearchAttributes req = ["cn"]).
Proof.
  split.
  - intros password r s' pre c req a post Hrun Hev.
    by destruct (Authenticate_search_event ext _ _ _ _ _ _ _ _ _ _ Hrun Hev)
      as (-> & _).
  - intros r s' pre c req a post Hrun Hev.
    rewrite GetGroupsOfUser_Filter in Hrun.
    by destruct (Filter_search_event ext _ _ _ _ _ _ _ _ _ _ Hrun Hev)
      as (-> & _).
Qed.

(** X13. With a filter template made of one [%s] between two texts without
    [%], the filter that [Authenticate] and [GetGroupsOfUser] search with is
    the template with the user name put in as it is: nothing of the name is
    escaped. *)
Theorem filter_substituted_verbatim prefix suffix username s :
  noPercent prefix = true → noPercent suffix = true →
  (UserFilter (client s) = prefix +:+ "%s" +:+ suffix →
   ∀ password, ∃ r s',
     Authenticate ext username password s = Some (r, s') ∧
     ∀ pre c req a post,
       events s' = events s ++ pre ++ EvSearch c req a :: post →
       ldap.Filter req = prefix +:+ username +:+ suffix) ∧
  (GroupFilter (client s) = prefix +:+ "%s" +:+ suffix →
   ∃ r s',
     GetGroupsOfUser ext username s = Some (r, s') ∧
     ∀ pre c req a post,
       events s' = events s ++ pre ++ EvSearch c req a :: post →
       ldap.Filter req = prefix +:+ username +:+ suffix).
Proof.
  intros Hpre Hsuf. destruct (search_requests username s) as [HA HG]. split.
  - intros HU password.
    destruct (Authenticate_returns ext username password s)
      as (r & s' & Hrun).
    exists r, s'. split; [done|]. intros pre c req a post Hev.
    rewrite (HA _ _ _ _ _ _ _ _ Hrun Hev), HU. by apply Sprintf_one_s.
  - intros HU.
    destruct (Filter_run ext
                (Sprintf (fmt_other ext) (GroupFilter (client s))
                   [str username]) ["cn"] s)
      as (r & s' & _ & _ & Hrun & _).
    rewrite <- GetGroupsOfUser_Filter in Hrun.
    exists r, s'. split; [done|]. intros pre c req a post Hev.
    destruct (HG _ _ _ _ _ _ _ Hrun Hev) as [-> _]. rewrite HU.
    by apply Sprintf_one_s.
Qed.

(** X14. With a filter template without any [%], the empty one included, the
    filter searched with is the template followed by Go's mark for an
    operand that no directive used. *)
Theorem filter_without_directive username s :
  (noPercent (UserFilter (client s)) = true →
   ∀ password, ∃ r s',
     Authenticate ext username password s = Some (r, s') ∧
     ∀ pre c req a post,
       events s' = events s ++ pre ++ EvSearch c req a :: post →
       ldap.Filter req
       = UserFilter (client s) +:+ "%!(EXTRA string=" +:+ username +:+ ")") ∧
  (noPercent (GroupFilter (client s)) = true →
   ∃ r s',
     GetGroupsOfUser ext username s = Some (r, s') ∧
     ∀ pre c req a post,
       events s' = events s ++ pre ++ EvSearch c req a :: post →
       ldap.Filter req
       = GroupFilter (client s) +:+ "%!(EXTRA string=" +:+ username +:+ ")").
Proof.
  destruct (search_requests username s) as [HA HG]. split.
  - intros HU password.
    destruct (Authenticate_returns ext username password s)
      as (r & s' & Hrun).
    exists r, s'. split; [done|]. intros pre c req a post Hev.
    rewrite (HA _ _ _ _ _ _ _ _ Hrun Hev). by apply Sprintf_no_directive.
  - intros HU.
    destruct (Filter_run ext
                (Sprintf (fmt_other ext) (GroupFilter (client s))
                   [str username]) ["cn"] s)
      as (r & s' & _ & _ & Hrun & _).
    rewrite <- GetGroupsOfUser_Filter in Hrun.
    exists r, s'. split; [done|]. intros pre c req a post Hev.
    destruct (HG _ _ _ _ _ _ _ Hrun Hev) as [-> _].
    by apply Sprintf_no_directive.
Qed.

(** X15.  The names that [ChangePassword] and [ChangeMembers] put into the DN
    are not escaped: a name that ends in [,ou=x] and the name without that end
    under the unit [x,ou=<ou>] give the same DN, and so the same run. *)
Theorem DN_not_escaped name x ou s :
  (∀ password,
     ChangePassword ext password (name +:+ ",ou=" +:+ x) ou s
     = ChangePassword ext password name (x +:+ ",ou=" +:+ ou) s) ∧
  (∀ members,
     ChangeMembers ext members (name +:+ ",ou=" +:+ x) ou s
     = ChangeMembers ext members name (x +:+ ",ou=" +:+ ou) s).
Proof.
  split; intros; unfold ChangePassword, ChangeMembers, bind, getClient;
    rewrite !Sprintf_cn_ou_base; by rewrite !append_assoc_s.
Qed.

End Formats.

(** ** What an add request tells of the account *)

Lemma length_append_s (a b : string) :
  String.length (a +:+ b) = String.length a + String.length b.
Proof.
  induction a as [|x a IH]; [done|]. rewrite append_cons. simpl.
  by rewrite IH.
Qed.

Lemma append_inv_head_s (a b c : string) : a +:+ b = a +:+ c → b = c.
Proof.
  induction a as [|x a IH]; [done|]. rewrite !append_cons.
  intros [= H]. by apply IH.
Qed.

Lemma append_inv_tail_s (a b s : string) : a +:+ s = b +:+ s → a = b.
Proof.
  revert b. induction a as [|x a IH]; intros [|y b] H.
  - done.
  - change ("" +:+ s) with s in H. apply (f_equal String.length) in H.
    rewrite append_cons in H. simpl in H. rewrite length_append_s in H. lia.
  - change ("" +:+ s) with s in H. apply (f_equal String.length) in H.
    rewrite append_cons in H. simpl in H. rewrite length_append_s in H. lia.
  - rewrite !append_cons in H. injection H as -> H. f_equal. by apply IH.
Qed.

Lemma addUserAccountRequest_inj lc a1 a2 :
  addUserAccountRequest lc a1 = addUserAccountRequest lc a2 → a1 = a2.
Proof.
  destruct a1 as [u1 p1 o1 i1 g1], a2 as [u2 p2 o2 i2 g2].
  unfold addUserAccountRequest. simpl.
  intros [= HDN Hi Hg -> _ ->].
  apply (inj pretty) in Hi. apply (inj pretty) in Hg. subst.
  apply (append_inv_head_s "") in HDN.
  apply append_inv_head_s in HDN.
  apply (append_inv_head_s ",ou=") in HDN.
  apply append_inv_tail_s in HDN. by subst.
Qed.

Lemma snoc2_inj {A} (l l' : list A) a b x : l ++ [a; b] = l' ++ [x] → b = x.
Proof.
  intros H. change (l ++ [a; b]) with (l ++ [a] ++ [b]) in H.
  rewrite app_assoc in H. by apply app_inj_tail in H as [_ ?].
Qed.

Section Accounts.
Context (ext : Extern).

(** The add request of a run of [AddUserAccount]. *)
Lemma AddUserAccount_add_event account s r s' pre c req x :
  AddUserAccount ext account s = Some (r, s') →
  events s' = events s ++ pre ++ [EvAdd c req x] →
  req = addUserAccountRequest (client s) account ∧ r = x.
Proof.
  rewrite AddUserAccount_guarded. intros Hrun Hev.
  destruct (guarded_run ext (λ err, err)
              (λ lc, Conn_Add ext (addUserAccountRequest lc account))
              (λ lc c tail r,
                 tail = [EvAdd c (addUserAccountRequest lc account) r]))
    with (s := s) as (r' & s'' & evc & rest & Hrun' & Hev' & Hdial & Hcases).
  { intros lc c' h Hc. by apply Conn_Add_run. }
  rewrite Hrun in Hrun'. injection Hrun' as <- <-.
  rewrite Hev' in Hev. apply app_inv_head in Hev.
  destruct Hcases as [(err & _ & -> & _)|(c' & Hcl & _ & Hac)].
  { rewrite app_nil_r in Hev. subst evc.
    apply Forall_app in Hdial as [_ Hdial].
    by apply Forall_cons in Hdial as [? _]. }
  rewrite Hcl in Hac.
  destruct Hac as [err Hcfg | tail r0 Hcfg -> | tail r0 Hcfg ->].
  - by apply app_inj_tail in Hev as [_ ?].
  - apply snoc2_inj in Hev. by injection Hev as <- <- <-.
  - apply app_inj_tail in Hev as [_ Hx]. by injection Hx as <- <- <-.
Qed.

(** X16. The add request that [AddUserAccount] sends tells the whole account:
    from the same client, two accounts whose runs send the same add request
    are the same account.  In particular the decimal texts of [UID] and
    [GID] lose nothing. *)
Theorem AddUserAccount_request_tells_account a1 a2 s :
  ∃ r1 s1 r2 s2,
    AddUserAccount ext a1 s = Some (r1, s1) ∧
    AddUserAccount ext a2 s = Some (r2, s2) ∧
    ∀ pre1 pre2 c1 c2 req x1 x2,
      events s1 = events s ++ pre1 ++ [EvAdd c1 req x1] →
      events s2 = events s ++ pre2 ++ [EvAdd c2 req x2] →
      a1 = a2.
Proof.
  destruct (AddUserAccount_operation ext a1 s) as (r1 & s1 & _ & _ & H1 & _).
  destruct (AddUserAccount_operation ext a2 s) as (r2 & s2 & _ & _ & H2 & _).
  exists r1, s1, r2, s2. split_and!; [done..|].
  intros pre1 pre2 c1 c2 req x1 x2 Hev1 Hev2.
  destruct (AddUserAccount_add_event _ _ _ _ _ _ _ _ H1 Hev1) as [-> _].
  destruct (AddUserAccount_add_event _ _ _ _ _ _ _ _ H2 Hev2) as [Heq _].
  by apply addUserAccountRequest_inj in Heq.
Qed.

End Accounts.

(** * The further properties on the example *)

(** Alice with the right password: the search and the accepted bind. *)
Lemma Authenticate_true_sound_witness :
  ∃ s' pre c sr e post,
    events s' = events Example.fresh ++ pre ++
      EvSearch c (authRequest Example.directory Example.lc0 "alice") (inl sr)
      :: EvBind c (ldap.DN e) "secret" None :: post
    ∧ ldap.Entries sr = [e].
Proof.
  destruct (Authenticate_true_sound Example.directory "alice" "secret"
              Example.fresh) as (r & s' & Hrun & H).
  vm_compute in Hrun. injection Hrun as Hr _.
  destruct (H _ _ (eq_sym Hr)) as (pre & c & sr & e & post & Hev & He & _).
  by exists s', pre, c, sr, e, post.
Defined.

(** Alice with a wrong password: [false], the map and the error of the
    refused bind. *)
Lemma Authenticate_false_has_error_witness :
  ∃ s' user berr pre c sr e,
    Authenticate Example.directory "alice" "wrong" Example.fresh
    = Some ((false, Some user, Some berr), s') ∧
    events s' = events Example.fresh ++ pre ++
      [EvSearch c (authRequest Example.directory Example.lc0 "alice") (inl sr);
       EvBind c (ldap.DN e) "wrong" (Some berr)].
Proof.
  destruct (Authenticate_false_has_error Example.directory "alice" "wrong"
              Example.fresh) as (r & s' & Hrun & H).
  pose proof Hrun as Hc. vm_compute in Hc. injection Hc as Hr _.
  destruct (H _ _ (eq_sym Hr)) as (_ & Hmap).
  destruct (Hmap _ eq_refl) as (pre & c & sr & e & berr & Hev & _ & Herr & _).
  eexists s', _, berr, pre, c, sr, e. split; [|exact Hev].
  rewrite Hrun, <- Hr. by injection Herr as <-.
Defined.

(** A search that fails, and a server that cannot be reached. *)
Lemma Authenticate_early_failure_witness :
  (∃ s', Authenticate Cases.noSearch "alice" "secret" Example.fresh
         = Some ((false, None, Some Example.busy), s')) ∧
  (∃ s', Authenticate Example.unreachable "alice" "secret" Example.fresh
         = Some ((false, None, Some Example.networkError), s')).
Proof.
  split.
  - destruct (Authenticate_early_failure Cases.noSearch "alice" "secret"
                Example.fresh) as (r & s' & Hrun & H & _).
    pose proof Hrun as Hc. vm_compute in Hc. injection Hc as _ Hs.
    assert (events s' = events Example.fresh ++
              [EvDial "tcp" "ldap.example.com:389" (inl 1%positive);
               EvStartTLS 1%positive (tls.mkConfig true "") None;
               EvBind 1%positive Example.serviceDN "readonlypassword" None] ++
              EvSearch 1%positive
                (authRequest Cases.noSearch Example.lc0 "alice")
                (inr Example.busy) :: [])
      as Hev by (rewrite <- Hs; reflexivity).
    destruct (H _ _ _ _ _ Hev) as [Hr _].
    exists s'. by rewrite Hrun, Hr.
  - destruct (Authenticate_early_failure Example.unreachable "alice" "secret"
                Example.fresh) as (r & s' & Hrun & _ & H).
    pose proof Hrun as Hc. vm_compute in Hc. injection Hc as Hr Hs.
    assert (events s' = events Example.fresh ++
              [EvDial "tcp" "ldap.example.com:389"
                 (inr Example.networkError)])
      as Hev by (rewrite <- Hs; reflexivity).
    destruct (H _ Hev) as (err & Hr' & _); [by repeat constructor|].
    exists s'. rewrite Hrun, <- Hr. reflexivity.
Defined.

(** A search by the connected client of the example keeps its connection
    and its configuration. *)
Lemma operations_keep_client_witness :
  ∃ r s', Filter Example.directory "(uid=alice)" ["uid"] Cases.connected
          = Some (r, s') ∧
    Conn (client s') = Some 1%positive ∧
    client s' = client Cases.connected.
Proof.
  destruct (operations_keep_client Example.directory Cases.connected)
    as (_ & HF & _).
  destruct (HF "(uid=alice)" ["uid"]) as (r & s' & evs & Hrun & _ & Hk & _).
  destruct Hk as [Hcl Hheld]. specialize (Hheld 1%positive eq_refl).
  exists r, s'. split_and!; [done..|]. by rewrite Hcl, Hheld.
Defined.

(** An add by the connected client of the example: no dial. *)
Lemma held_connection_reused_witness :
  ∃ r s' evs,
    AddUser Example.directory "dave" "pw" "people" Cases.connected
    = Some (r, s') ∧
    events s' = events Cases.connected ++ evs ∧
    Forall (λ ev, onConn 1%positive ev = true) evs.
Proof.
  destruct (held_connection_reused Example.directory Cases.connected
              1%positive eq_refl) as (_ & _ & HA & _).
  destruct (HA "dave" "pw" "people") as (r & s' & evs & Hrun & Hev & _ & HF).
  by exists r, s', evs.
Defined.

(** The first connection of the example. *)
Lemma Connect_holds_dialed_witness :
  ∃ s', Connect Example.directory Example.fresh = Some (None, s') ∧
        Conn (client s') = Some 1%positive.
Proof.
  destruct (Connect_holds_dialed Example.directory Example.fresh eq_refl)
    as (r & s' & d & evs & x & Hrun & Hev & Hd & Hr).
  pose proof Hrun as Hc. vm_compute in Hc. injection Hc as Hr' Hs.
  subst r. destruct Hr as (l & Hx & Hcl).
  exists s'. split; [exact Hrun|]. by rewrite <- Hs.
Defined.

(** A server that refuses the upgrade: an error, no connection held, and
    the connection dialed left open. *)
Lemma Connect_failed_upgrade_drops_witness :
  ∃ err s',
    Connect Cases.noStartTLS Example.fresh = Some (Some err, s') ∧
    Conn (client s') = None ∧
    events s' = [EvDial "tcp" "ldap.example.com:389" (inl 4%positive);
                 EvStartTLS 4%positive (tls.mkConfig true "") (Some err)].
Proof.
  destruct (Connect_failed_upgrade_drops Cases.noStartTLS Example.fresh)
    as (r & s' & evs & Hrun & Hev & _ & H).
  pose proof Hrun as Hc. vm_compute in Hc. injection Hc as _ Hs.
  assert (EvStartTLS 4%positive (tls.mkConfig true "")
            (Some (ldap_Error 2 "Protocol Error")) ∈ evs) as Hin.
  { rewrite <- Hs in Hev. simpl in Hev. rewrite <- Hev.
    apply elem_of_cons. right. apply elem_of_cons. by left. }
  destruct (H _ _ _ Hin) as (-> & Hnone & ->).
  eexists _, s'. split_and!; [exact Hrun|exact Hnone|].
  rewrite Hev. reflexivity.
Defined.

(** Closing the held connection of the example and connecting again. *)
Lemma Close_then_Connect_redials_witness :
  ∃ s' evs,
    (Close ;;; Connect Example.directory) Example.held = Some (None, s') ∧
    events s' = EvClose 7%positive :: evs ∧
    Conn (client s') = Some 1%positive.
Proof.
  destruct (Close_then_Connect_redials Example.directory Example.held
              7%positive eq_refl)
    as (r & s' & d & evs & x & Hrun & Hev & Hd & Hr).
  pose proof Hrun as Hc. vm_compute in Hc. injection Hc as Hr' Hs.
  subst r. exists s', (d :: evs). split_and!; [exact Hrun|exact Hev|].
  by rewrite <- Hs.
Defined.

(** After alice's wrong password, a search for her groups. *)
Lemma Filter_after_refused_login_witness :
  ∃ s1 user err c h berr r a,
    Authenticate Example.directory "alice" "wrong" Example.fresh
    = Some ((false, Some user, err), s1) ∧
    events s1 = h ++ [EvBind c (ldap.DN Example.alice) "wrong" (Some berr)] ∧
    Filter Example.directory "(memberUid=alice)" ["cn"] s1
    = Some (r, mkState (client s1)
                 (events s1 ++
                    [EvSearch c
                       (filterRequest Example.lc0 "(memberUid=alice)" ["cn"])
                       a])).
Proof.
  destruct (Authenticate_returns Example.directory "alice" "wrong"
              Example.fresh) as (r & s1 & Hrun).
  pose proof Hrun as Hc. vm_compute in Hc. injection Hc as Hr Hs.
  rewrite <- Hr in Hrun.
  destruct (Filter_after_refused_login Example.directory _ _ _ _ _ _ Hrun)
    as (c & dn & berr & h & Hev & Hconn & HF).
  destruct (HF "(memberUid=alice)" ["cn"]) as (r2 & a & HF').
  eexists s1, _, _, c, h, berr, r2, a. split_and!; [exact Hrun| |exact HF'].
  rewrite Hev. do 2 f_equal.
  rewrite <- Hs in Hev. simpl in Hev.
  apply (f_equal last) in Hev. rewrite last_snoc in Hev. simpl in Hev.
  by injection Hev as _ <- _.
Defined.

(** A search that fails. *)
Lemma Filter_failure_witness :
  ∃ s', Filter Cases.noSearch "(uid=alice)" ["cn"] Example.fresh
        = Some ((None, Some Example.busy), s').
Proof.
  destruct (Filter_failure Cases.noSearch "(uid=alice)" ["cn"] Example.fresh)
    as (r & s' & Hrun & _ & H & _).
  pose proof Hrun as Hc. vm_compute in Hc. injection Hc as _ Hs.
  assert (events s' = events Example.fresh ++
            [EvDial "tcp" "ldap.example.com:389" (inl 1%positive);
             EvStartTLS 1%positive (tls.mkConfig true "") None] ++
            EvSearch 1%positive
              (filterRequest Example.lc0 "(uid=alice)" ["cn"])
              (inr Example.busy) :: [])
    as Hev by (rewrite <- Hs; reflexivity).
  destruct (H _ _ _ _ _ Hev) as [Hr _].
  exists s'. by rewrite Hrun, Hr.
Defined.

(** An entry whose attribute has no value: the empty slice. *)
Lemma Filter_empty_iff_no_values_witness :
  ∃ s', Filter Cases.bare "(cn=empty)" ["cn"] Example.fresh
        = Some ((Some [], None), s').
Proof.
  destruct (Filter_empty_iff_no_values Cases.bare "(cn=empty)" ["cn"]
              Example.fresh) as (r & s' & Hrun & H).
  pose proof Hrun as Hc. vm_compute in Hc. injection Hc as _ Hs.
  assert (events s' = events Example.fresh ++
            [EvDial "tcp" "ldap.example.com:389" (inl 1%positive);
             EvStartTLS 1%positive (tls.mkConfig true "") None] ++
            EvSearch 1%positive
              (filterRequest Example.lc0 "(cn=empty)" ["cn"])
              (inl (ldap.mkSearchResult
                      [ldap.mkEntry "cn=empty,dc=example,dc=com"
                         [ldap.mkEntryAttribute "cn" []]])) :: [])
    as Hev by (rewrite <- Hs; reflexivity).
  destruct (H _ _ _ _ _ Hev) as [_ Hr].
  exists s'. rewrite Hrun, Hr; [done|].
  intros e a He Ha. simpl in He.
  apply list_elem_of_singleton in He. subst e. simpl in Ha.
  apply list_elem_of_singleton in Ha. by subst a.
Defined.

(** A user name that closes the filter and opens another one. *)
Lemma filter_substituted_verbatim_witness :
  ∃ r s' pre c req a post,
    Authenticate Example.directory "*)(uid=*" "x" Example.fresh
    = Some (r, s') ∧
    events s' = events Example.fresh ++ pre ++ EvSearch c req a :: post ∧
    ldap.Filter req = "(uid=*)(uid=*)".
Proof.
  destruct (filter_substituted_verbatim Example.directory "(uid=" ")"
              "*)(uid=*" Example.fresh eq_refl eq_refl) as [HA _].
  destruct (HA eq_refl "x") as (r & s' & Hrun & H).
  pose proof Hrun as Hc. vm_compute in Hc. injection Hc as _ Hs.
  assert (events s' = events Example.fresh ++
            [EvDial "tcp" "ldap.example.com:389" (inl 1%positive);
             EvStartTLS 1%positive (tls.mkConfig true "") None;
             EvBind 1%positive Example.serviceDN "readonlypassword" None] ++
            EvSearch 1%positive
              (authRequest Example.directory Example.lc0 "*)(uid=*")
              (inl (ldap.mkSearchResult [])) :: [])
    as Hev by (rewrite <- Hs; reflexivity).
  eexists r, s', _, _, _, _, _. split_and!; [exact Hrun|exact Hev|].
  exact (H _ _ _ _ _ Hev).
Defined.

(** A user filter that does not mention the user. *)
Lemma filter_without_directive_witness :
  ∃ r s' pre c req a post,
    Authenticate Example.directory "alice" "x" Cases.fixedFilter
    = Some (r, s') ∧
    events s' = events Cases.fixedFilter ++ pre ++ EvSearch c req a :: post ∧
    ldap.Filter req = "(objectClass=person)%!(EXTRA string=alice)".
Proof.
  destruct (filter_without_directive Example.directory "alice"
              Cases.fixedFilter) as [HA _].
  destruct (HA eq_refl "x") as (r & s' & Hrun & H).
  pose proof Hrun as Hc. vm_compute in Hc. injection Hc as _ Hs.
  assert (events s' = events Cases.fixedFilter ++
            [EvDial "tcp" "ldap.example.com:389" (inl 1%positive);
             EvStartTLS 1%positive (tls.mkConfig true "") None;
             EvBind 1%positive Example.serviceDN "readonlypassword" None] ++
            EvSearch 1%positive
              (authRequest Example.directory (client Cases.fixedFilter)
                 "alice")
              (inl (ldap.mkSearchResult [])) :: [])
    as Hev by (rewrite <- Hs; reflexivity).
  eexists r, s', _, _, _, _, _. split_and!; [exact Hrun|exact Hev|].
  exact (H _ _ _ _ _ Hev).
Defined.

(** The account of carol, added by the client without bind password. *)
Lemma AddUserAccount_request_tells_account_witness :
  ∃ r s',
    AddUserAccount Example.directory Cases.account Example.fresh1
    = Some (r, s') ∧
    events s' =
      [EvDial "tcp" "ldap.example.com:389" (inl 1%positive);
       EvStartTLS 1%positive (tls.mkConfig true "") None;
       EvAdd 1%positive (addUserAccountRequest Example.lc1 Cases.account) r]
    ∧ Cases.account = Cases.account.
Proof.
  destruct (AddUserAccount_request_tells_account Example.directory
              Cases.account Cases.account Example.fresh1)
    as (r1 & s1 & r2 & s2 & H1 & H2 & H).
  pose proof H1 as Hc. vm_compute in Hc. injection Hc as Hr Hs.
  rewrite H1 in H2. injection H2 as <- <-.
  assert (events s1 = events Example.fresh1 ++
            [EvDial "tcp" "ldap.example.com:389" (inl 1%positive);
             EvStartTLS 1%positive (tls.mkConfig true "") None] ++
            [EvAdd 1%positive
               (addUserAccountRequest Example.lc1 Cases.account) r1])
    as Hev by (rewrite <- Hs, <- Hr; reflexivity).
  exists r1, s1. split_and!; [exact H1|exact Hev|].
  exact (H _ _ _ _ _ _ _ Hev Hev).
Defined.

(** Alice logs in on the client without bind password; the password change
    that follows is sent right after her bind. *)
Lemma unconfigured_writes_follow_user_bind_witness :
  ∃ s1 c dn h r,
    events s1 = h ++ [EvBind c dn "secret" None] ∧
    ChangePassword Example.directory "next" "alice" "people" s1
    = Some (r, mkState (client s1)
                 (events s1 ++
                    [EvModify c
                       (replaceRequest
                          "cn=alice,ou=people,dc=example,dc=com"
                          "userPassword" ["next"]) r])).
Proof.
  destruct (Authenticate_returns Example.directory "alice" "secret"
              Example.fresh1) as (r & s1 & Hrun).
  pose proof Hrun as Hc. vm_compute in Hc. injection Hc as Hr Hs.
  rewrite <- Hr in Hrun.
  assert (Hcfg : ¬ configured (client Example.fresh1))
    by (by intros [_ ?]).
  destruct (unconfigured_writes_follow_user_bind Example.directory
              _ _ _ _ _ _ Hcfg Hrun)
    as (c & dn & h & Hev & _ & _ & _ & HM).
  destruct (HM "cn=alice,ou=people,dc=example,dc=com" "userPassword" ["next"])
    as (r2 & HM').
  exists s1, c, dn, h, r2. split; [exact Hev|].
  rewrite <- HM'. by rewrite <- Hs.
Defined.
